(** * django-ldapdb: the entry synchroniser of [ldapdb/models/base.py]

    A shallow embedding of [ldapdb.models.base.Model]: the RDN/DN builder
    ([build_rdn], [build_dn]), the diff-based [save], [delete] and the
    [scoped] class factory, followed by the properties of the
    natural-language specification that concern them.

    The directory connection, the point lookup [objects.get], the
    connection router and the field codec are external collaborators; they
    are the members of the [Backend] class below, and every theorem holds
    for every backend. *)

From Stdlib Require Import Ascii.
From stdpp Require Import gmap strings list pretty.

Local Open Scope string_scope.
Local Open Scope list_scope.

(** ** Python values *)

(** The values a model attribute holds here: [None], a string or an
    integer. *)
Inductive Value :=
  | VNone
  | VStr (s : string)
  | VInt (z : Z).

#[global] Instance Value_eq_dec : EqDecision Value.
Proof. solve_decision. Defined.

(** Python truthiness ([if value:], [not value]). *)
Definition truthy (v : Value) : bool :=
  match v with
  | VNone => false
  | VStr s => negb (String.eqb s "")
  | VInt z => negb (Z.eqb z 0)
  end.

(** Python [==] and [!=] on these values: values of different types are
    never equal. *)
Definition py_eq (a b : Value) : bool := bool_decide (a = b).
Definition py_ne (a b : Value) : bool := negb (py_eq a b).

(** [str(v)], as the [%s] conversion applies it. *)
Definition py_str (v : Value) : string :=
  match v with
  | VNone => "None"
  | VStr s => s
  | VInt z => pretty z
  end.

(** ** Exceptions *)

Inductive Exn :=
  | TypeError (msg : string)
  | Exception (msg : string)
  | AttributeError (attr : string)
  | LDAPError (desc : string)
  | DoesNotExist
  | MultipleObjectsReturned.

#[global] Instance Exn_eq_dec : EqDecision Exn.
Proof. solve_decision. Defined.

Definition Result (A : Type) : Type := Exn + A.

Definition res_bind {A B} (r : Result A) (k : A -> Result B) : Result B :=
  match r with
  | inl e => inl e
  | inr a => k a
  end.

Notation "'let?' x ':=' r 'in' k" := (res_bind r (fun x => k))
  (at level 10, x name, r at level 100, k at level 200).

(** The two exceptions [build_rdn] raises by itself; the specification
    calls both [IdentityError]. *)
Definition all_keys_error : Exn :=
  TypeError "All keys must be specified when called on a class".
Definition no_dn_error : Exn :=
  Exception "Could not build Distinguished Name".

Definition is_IdentityError (e : Exn) : bool :=
  bool_decide (e = all_keys_error) || bool_decide (e = no_dn_error).

(** ** Fields, model classes and instances *)

(** A declared field, as [build_rdn] and [save] read it: [field.name],
    [field.db_column] ([None] or a string) and [field.primary_key]. *)
Record Field := {
  name : string;
  db_column : option string;
  primary_key : bool
}.

#[global] Instance Field_eq_dec : EqDecision Field.
Proof. solve_decision. Defined.

(** [dn = django.db.models.fields.CharField(max_length=200)]: a declared
    field without a directory attribute. *)
Definition dn_field : Field :=
  {| name := "dn"; db_column := None; primary_key := false |}.

Abbreviation Alias := string.

(** A model class: its name and module, [_meta.fields] in declaration
    order, and the meta-data attributes of [Model]. [proxy] is the [Meta]
    of the classes the factories build. *)
Record Class := {
  cls_name : string;
  cls_module : string;
  fields : list Field;
  base_dn : Value;
  bound_alias : option Alias;
  search_scope : Z;
  object_classes : list string;
  proxy : bool
}.

(** A model instance: its class, its attribute dictionary (the values of
    the declared fields, [dn] among them) and [saved_pk]. *)
Record Instance := {
  cls : Class;
  attrs : gmap string Value;
  saved_pk : Value
}.

Definition set_attr (n : string) (v : Value) (i : Instance) : Instance :=
  {| cls := cls i; attrs := <[n := v]> (attrs i); saved_pk := saved_pk i |}.

Definition set_saved_pk (v : Value) (i : Instance) : Instance :=
  {| cls := cls i; attrs := attrs i; saved_pk := v |}.

(** [getattr(obj, name)]: raises [AttributeError] when the attribute is
    missing. *)
Definition getattr (i : Instance) (n : string) : Result Value :=
  match attrs i !! n with
  | Some v => inr v
  | None => inl (AttributeError n)
  end.

(** [getattr(obj, name, None)]. *)
Definition getattr_default (i : Instance) (n : string) : Value :=
  default VNone (attrs i !! n).

(** [self.pk]: the value of [_meta.pk], the first declared field with
    [primary_key] set. *)
Definition meta_pk (c : Class) : option Field :=
  List.find primary_key (fields c).

Definition pk (i : Instance) : Result Value :=
  match meta_pk (cls i) with
  | Some f => getattr i (name f)
  | None => inl (AttributeError "pk")
  end.

(** [Model.__init__]: the framework's constructor has filled [attrs];
    [saved_pk] is then [self.pk]. *)
Definition Model_init (c : Class) (a : gmap string Value) : Result Instance :=
  let i := {| cls := c; attrs := a; saved_pk := VNone |} in
  let? k := pk i in
  inr (set_saved_pk k i).

(** What the framework's constructor guarantees: every declared field,
    and [dn], has an attribute on the instance. *)
Definition has_attr (i : Instance) (n : string) : bool :=
  bool_decide (is_Some (attrs i !! n)).

Definition wf_instance (i : Instance) : bool :=
  has_attr i "dn" && forallb (fun f => has_attr i (name f)) (fields (cls i)).

(** ** The RDN / DN builder *)

(** [build_rdn] and [build_dn] are [classorinstancemethod]s: [self] is the
    instance, or the class when there is none. *)
Inductive Self :=
  | OnClass (c : Class)
  | OnInstance (i : Instance).

Definition self_class (s : Self) : Class :=
  match s with
  | OnClass c => c
  | OnInstance i => cls i
  end.

(** ["%s=%s" % (column, value)] *)
Definition rdn_bit (col : string) (v : Value) : string :=
  col +:+ "=" +:+ py_str v.

(** The loop of [build_rdn] over [self._meta.fields]; [bits] is the list
    built so far. *)
Fixpoint build_rdn_loop (self : Self) (keys : gmap string Value)
    (fs : list Field) (bits : list string) : Result (list string) :=
  match fs with
  | [] => inr bits
  | field :: rest =>
      match db_column field with
      | None | Some EmptyString => build_rdn_loop self keys rest bits
      | Some col =>
          match keys !! name field with
          | Some v => build_rdn_loop self keys rest (bits ++ [rdn_bit col v])
          | None =>
              if primary_key field then
                match self with
                | OnClass _ => inl all_keys_error
                | OnInstance i =>
                    let? v := getattr i (name field) in
                    build_rdn_loop self keys rest (bits ++ [rdn_bit col v])
                end
              else build_rdn_loop self keys rest bits
          end
      end
  end.

Definition build_rdn (self : Self) (keys : gmap string Value) : Result string :=
  let? bits := build_rdn_loop self keys (fields (self_class self)) [] in
  if Nat.eqb (length bits) 0 then inl no_dn_error
  else inr (String.concat "+" bits).

(** [build_dn]: the RDN, a comma and [str(self.base_dn)]. *)
Definition build_dn (self : Self) (keys : gmap string Value) : Result string :=
  let? rdn := build_rdn self keys in
  inr (rdn +:+ "," +:+ py_str (base_dn (self_class self))).

(** ** Directory operations and the external collaborators *)

(** An encoded attribute value, as python-ldap takes it. *)
Abbreviation Wire := (list string).

(** The attribute list of [add_s]. *)
Abbreviation Entry := (list (string * Wire)).

(** [ldap.MOD_REPLACE] and [ldap.MOD_DELETE]. *)
Inductive ModOp :=
  | MOD_REPLACE
  | MOD_DELETE.

(** The modification list of [modify_s]: (operation, attribute, value or
    [None]). *)
Abbreviation Modlist := (list (ModOp * string * option Wire)).

(** What the synchroniser asks of its collaborators, in the order it asks:
    the calls on the connection, the point lookup, and the two signals. *)
Inductive Event :=
  | EvAdd (conn : Alias) (dn : Value) (entry : Entry)
  | EvRename (conn : Alias) (dn : Value) (newrdn : string)
  | EvModify (conn : Alias) (dn : Value) (modlist : Modlist)
  | EvDelete (conn : Alias) (dn : Value)
  | EvGet (sender : Class) (key : Value)
  | EvPostSave (sender : Class) (instance : Instance) (created : bool)
  | EvPostDelete (sender : Class) (instance : Instance).

(** The external collaborators. [Dir] is the state of the directory
    server; a call on the connection either raises or returns with a new
    directory state. *)
Class Backend := {
  Dir : Type;
  (** [field.get_db_prep_save(value, connection=connection)] *)
  get_db_prep_save : Field -> Value -> Alias -> Wire;
  (** [router.db_for_write(self.__class__, instance=self)] *)
  db_for_write : Class -> Instance -> Alias;
  (** [cls.objects.get(pk=key)] *)
  objects_get : Class -> Value -> Dir -> Result Instance;
  add_s : Alias -> Value -> Entry -> Dir -> Result Dir;
  rename_s : Alias -> Value -> string -> Dir -> Result Dir;
  modify_s : Alias -> Value -> Modlist -> Dir -> Result Dir;
  delete_s : Alias -> Value -> Dir -> Result Dir
}.

(** ** A state-and-exception monad *)

(** A method runs on a state and either raises or returns; the state it
    leaves is kept in both cases. *)
Definition M (S A : Type) : Type := S -> Result A * S.

Definition ret {S A} (a : A) : M S A := fun s => (inr a, s).

Definition raise {S A} (e : Exn) : M S A := fun s => (inl e, s).

Definition bind {S A B} (m : M S A) (k : A -> M S B) : M S B :=
  fun s =>
    match m s with
    | (inl e, s') => (inl e, s')
    | (inr a, s') => k a s'
    end.

Definition lift {S A} (r : Result A) : M S A := fun s => (r, s).

Notation "'let*' x ':=' m 'in' k" := (bind m (fun x => k))
  (at level 10, x name, m at level 100, k at level 200).
Notation "m ';;' k" := (bind m (fun _ => k))
  (at level 100, k at level 200, right associativity).

Section Synchroniser.

Context {B : Backend}.

(** The state a method of an instance runs on: the instance itself, the
    directory, and the trace of events so far. *)
Record State := {
  st_self : Instance;
  st_dir : Dir;
  st_trace : list Event
}.

Definition with_self (i : Instance) (st : State) : State :=
  {| st_self := i; st_dir := st_dir st; st_trace := st_trace st |}.

Definition with_dir (d : Dir) (st : State) : State :=
  {| st_self := st_self st; st_dir := d; st_trace := st_trace st |}.

Definition log_event (ev : Event) (st : State) : State :=
  {| st_self := st_self st; st_dir := st_dir st;
     st_trace := st_trace st ++ [ev] |}.

Definition get_self : M State Instance := fun st => (inr (st_self st), st).

Definition modify_self (f : Instance -> Instance) : M State unit :=
  fun st => (inr tt, with_self (f (st_self st)) st).

(** [getattr(self, n)] and [setattr(self, n, v)] *)
Definition self_getattr (n : string) : M State Value :=
  let* i := get_self in lift (getattr i n).

Definition self_setattr (n : string) (v : Value) : M State unit :=
  modify_self (set_attr n v).

(** A signal: the observers are external, the trace records the send. *)
Definition send (ev : Event) : M State unit :=
  fun st => (inr tt, log_event ev st).

(** A call on the connection: recorded, then it raises or returns. *)
Definition ldap_call (ev : Event) (f : Dir -> Result Dir) : M State unit :=
  fun st =>
    let st1 := log_event ev st in
    match f (st_dir st) with
    | inl e => (inl e, st1)
    | inr d => (inr tt, with_dir d st1)
    end.

Definition conn_add_s (conn : Alias) (dn : Value) (entry : Entry) :=
  ldap_call (EvAdd conn dn entry) (add_s conn dn entry).
Definition conn_rename_s (conn : Alias) (dn : Value) (newrdn : string) :=
  ldap_call (EvRename conn dn newrdn) (rename_s conn dn newrdn).
Definition conn_modify_s (conn : Alias) (dn : Value) (modlist : Modlist) :=
  ldap_call (EvModify conn dn modlist) (modify_s conn dn modlist).
Definition conn_delete_s (conn : Alias) (dn : Value) :=
  ldap_call (EvDelete conn dn) (delete_s conn dn).

(** [self.__class__.objects.get(pk=key)]: a read of the directory. *)
Definition manager_get (c : Class) (key : Value) : M State Instance :=
  fun st => (objects_get c key (st_dir st), log_event (EvGet c key) st).

(** ** [Model._get_connection] *)

Definition truthy_alias (a : option Alias) : bool :=
  match a with
  | None | Some EmptyString => false
  | Some _ => true
  end.

(** [using or self.bound_alias or router.db_for_write(...)]; the
    connection is named by its alias. ([using] is reserved here, hence
    [using_].) *)
Definition _get_connection (using_ : option Alias) : M State Alias :=
  let* self := get_self in
  match using_ with
  | None | Some EmptyString =>
      match bound_alias (cls self) with
      | None | Some EmptyString => ret (db_for_write (cls self) self)
      | Some a => ret a
      end
  | Some a => ret a
  end.

(** ** [Model.delete] *)

Definition delete (using_ : option Alias) : M State unit :=
  let* connection := _get_connection using_ in
  let* dn := self_getattr "dn" in
  conn_delete_s connection dn;;
  let* self := get_self in
  send (EvPostDelete (cls self) self).

(** ** [Model.save] *)

(** The loop of the create branch: [entry] is the list built so far. *)
Fixpoint entry_loop (self : Instance) (connection : Alias)
    (fs : list Field) (entry : Entry) : Result Entry :=
  match fs with
  | [] => inr entry
  | field :: rest =>
      match db_column field with
      | None | Some EmptyString => entry_loop self connection rest entry
      | Some col =>
          let? value := getattr self (name field) in
          if truthy value then
            entry_loop self connection rest
              (entry ++ [(col, get_db_prep_save field value connection)])
          else entry_loop self connection rest entry
      end
  end.

(** The loop of the update branch: [modlist] is the list built so far. *)
Fixpoint modlist_loop (orig self : Instance) (connection : Alias)
    (fs : list Field) (modlist : Modlist) : Modlist :=
  match fs with
  | [] => modlist
  | field :: rest =>
      match db_column field with
      | None | Some EmptyString =>
          modlist_loop orig self connection rest modlist
      | Some col =>
          let old_value := getattr_default orig (name field) in
          let new_value := getattr_default self (name field) in
          if py_ne old_value new_value then
            if truthy new_value then
              modlist_loop orig self connection rest
                (modlist ++ [(MOD_REPLACE, col,
                              Some (get_db_prep_save field new_value connection))])
            else if truthy old_value then
              modlist_loop orig self connection rest
                (modlist ++ [(MOD_DELETE, col, None)])
            else modlist_loop orig self connection rest modlist
          else modlist_loop orig self connection rest modlist
      end
  end.

(** [self.build_rdn()] and [self.build_dn()] on the instance. *)
Definition self_build_rdn (keys : gmap string Value) : M State string :=
  let* self := get_self in lift (build_rdn (OnInstance self) keys).

Definition self_build_dn (keys : gmap string Value) : M State string :=
  let* self := get_self in lift (build_dn (OnInstance self) keys).

(** The create branch; it returns [record_exists]. *)
Definition save_create (connection : Alias) : M State bool :=
  let* self := get_self in
  let entry := [("objectClass", object_classes (cls self))] in
  let* new_dn := self_build_dn ∅ in
  let* entry := lift (entry_loop self connection (fields (cls self)) entry) in
  conn_add_s connection (VStr new_dn) entry;;
  self_setattr "dn" (VStr new_dn);;
  ret false.

(** The update branch; it returns [record_exists]. *)
Definition save_update (connection : Alias) : M State bool :=
  let* self := get_self in
  let* orig := manager_get (cls self) (saved_pk self) in
  let modlist := modlist_loop orig self connection (fields (cls self)) [] in
  (if negb (Nat.eqb (length modlist) 0) then
     let* new_dn := self_build_dn ∅ in
     let* dn := self_getattr "dn" in
     (if py_ne (VStr new_dn) dn then
        let* dn := self_getattr "dn" in
        let* rdn := self_build_rdn ∅ in
        conn_rename_s connection dn rdn;;
        self_setattr "dn" (VStr new_dn)
      else ret tt);;
     let* dn := self_getattr "dn" in
     conn_modify_s connection dn modlist
   else ret tt);;
  ret true.

Definition save (using_ : option Alias) : M State unit :=
  let* connection := _get_connection using_ in
  let* dn := self_getattr "dn" in
  let* record_exists :=
    if negb (truthy dn) then save_create connection
    else save_update connection in
  let* self := get_self in
  let* key := lift (pk self) in
  modify_self (set_saved_pk key);;
  let* self := get_self in
  send (EvPostSave (cls self) self (negb record_exists)).

End Synchroniser.

(** ** [Model.scoped] *)

(** [re.sub('[=,]', '_', base_dn)] *)
Fixpoint re_sub_eq_comma (s : string) : string :=
  match s with
  | EmptyString => EmptyString
  | String c rest =>
      String (if Ascii.eqb c "="%char || Ascii.eqb c ","%char
              then "_"%char else c)
             (re_sub_eq_comma rest)
  end.

(** [type(name, (base_class,), {'base_dn': base_dn, '__module__': ...,
    'Meta': Meta})]: every attribute the new class does not define is the
    base class's. The factory touches no state, whatever the state is. *)
Definition scoped {S} (base_class : Class) (new_base_dn : string) : M S Class :=
  let suffix := re_sub_eq_comma new_base_dn in
  let name := cls_name base_class +:+ "_" +:+ suffix in
  let new_class :=
    {| cls_name := name;
       cls_module := cls_module base_class;
       fields := fields base_class;
       base_dn := VStr new_base_dn;
       bound_alias := bound_alias base_class;
       search_scope := search_scope base_class;
       object_classes := object_classes base_class;
       proxy := true |} in
  ret new_class.

(** ** [Model.bind_as] *)

(** [settings.DATABASES]: for each alias, the configuration dictionary of
    that connection. *)
Abbreviation Databases := (gmap string (gmap string Value)).

(** What [bind_as] can raise: the [KeyError] of
    [settings.DATABASES[base_alias]], or what [build_dn] raises. *)
Inductive BindExn :=
  | KeyError (key : string)
  | Raised (e : Exn).

(** [password or ''] *)
Definition password_or_empty (password : Value) : Value :=
  if truthy password then password else VStr "".

(** [type(name, (base_class,), {'bound_alias': alias, '__module__': ...,
    'Meta': Meta})] with [name = "%s_%s" % (base_class.__name__,
    str(alias))]. *)
Definition bound_class (base_class : Class) (alias : Alias) : Class :=
  {| cls_name := cls_name base_class +:+ "_" +:+ alias;
     cls_module := cls_module base_class;
     fields := fields base_class;
     base_dn := base_dn base_class;
     bound_alias := Some alias;
     search_scope := search_scope base_class;
     object_classes := object_classes base_class;
     proxy := true |}.

(** [bind_as(base_class, alias, dn=None, password=None, **kwargs)], on the
    state [settings.DATABASES]. [router] is [router.db_for_write] called
    without an instance. [new_db] is the dictionary stored under [alias]
    (a fresh deep copy of the base configuration, or the one already
    there): the two item assignments write through to
    [settings.DATABASES[alias]]. The copy is registered before [build_dn]
    is called, and stays registered when [build_dn] raises. *)
Definition bind_as (router : Class -> Alias) (base_class : Class)
    (alias : Alias) (dn password : Value) (kwargs : gmap string Value)
    (DATABASES : Databases) : (BindExn + Class) * Databases :=
  let registered : BindExn + (gmap string Value * Databases) :=
    match DATABASES !! alias with
    | None =>
        let base_alias := router base_class in
        match DATABASES !! base_alias with
        | None => inl (KeyError base_alias)
        | Some base_db => inr (base_db, <[alias := base_db]> DATABASES)
        end
    | Some new_db => inr (new_db, DATABASES)
    end in
  match registered with
  | inl e => (inl e, DATABASES)
  | inr (new_db, DATABASES1) =>
      let computed : Exn + Value :=
        match dn with
        | VNone =>
            match build_dn (OnClass base_class) kwargs with
            | inl e => inl e
            | inr s => inr (VStr s)
            end
        | _ => inr dn
        end in
      match computed with
      | inl e => (inl (Raised e), DATABASES1)
      | inr dn =>
          let new_db :=
            <["PASSWORD" := password_or_empty password]>
              (<["USER" := dn]> new_db) in
          (inr (bound_class base_class alias), <[alias := new_db]> DATABASES1)
      end
  end.

(** ** A concrete model and backend, for the examples *)

Module Demo.

Definition uid_field : Field :=
  {| name := "uid"; db_column := Some "uid"; primary_key := true |}.
Definition cn_field : Field :=
  {| name := "cn"; db_column := Some "cn"; primary_key := false |}.
Definition mail_field : Field :=
  {| name := "mail"; db_column := Some "mail"; primary_key := false |}.
(** A local-only field: no directory attribute. *)
Definition note_field : Field :=
  {| name := "note"; db_column := None; primary_key := false |}.

Definition Person : Class :=
  {| cls_name := "Person";
     cls_module := "people.models";
     fields := [dn_field; uid_field; cn_field; mail_field; note_field];
     base_dn := VStr "ou=people,dc=example,dc=com";
     bound_alias := None;
     search_scope := 2;
     object_classes := ["top"; "person"];
     proxy := false |}.

Definition person (dn uid cn mail : Value) (saved : Value) : Instance :=
  {| cls := Person;
     attrs := <["dn" := dn]> (<["uid" := uid]> (<["cn" := cn]>
              (<["mail" := mail]> (<["note" := VStr ""]> ∅))));
     saved_pk := saved |}.

(** The calls on the connection a demo backend can be told to refuse. *)
Inductive Op := OpAdd | OpRename | OpModify | OpDelete.

#[global] Instance Op_eq_dec : EqDecision Op.
Proof. solve_decision. Defined.

Definition refuse (failing : list Op) (op : Op) (d : nat) : Result nat :=
  if bool_decide (op ∈ failing) then inl (LDAPError "SERVER_DOWN")
  else inr (S d).

(** A backend whose directory state counts the successful writes, whose
    lookup answers [stored], whose codec wraps [str(value)] in a list, and
    whose connection refuses the calls in [failing]. *)
Definition backend (stored : Result Instance) (failing : list Op) : Backend :=
  {| Dir := nat;
     get_db_prep_save := fun _ v _ => [py_str v];
     db_for_write := fun _ _ => "ldap";
     objects_get := fun _ _ _ => stored;
     add_s := fun _ _ _ => refuse failing OpAdd;
     rename_s := fun _ _ _ => refuse failing OpRename;
     modify_s := fun _ _ _ => refuse failing OpModify;
     delete_s := fun _ _ => refuse failing OpDelete |}.

Definition start {B : Backend} (i : Instance) (d : Dir) : State :=
  {| st_self := i; st_dir := d; st_trace := [] |}.

Definition carol : Instance :=
  person (VStr "") (VStr "carol") (VStr "Carol") VNone (VStr "carol").

Definition alice_dn : Value := VStr "uid=alice,ou=people,dc=example,dc=com".

Definition alice : Instance :=
  person alice_dn (VStr "alice") (VStr "Alice") (VStr "a@example.com")
         (VStr "alice").

(** Alice with a new common name and no mail address any more. *)
Definition alice_edited : Instance :=
  person alice_dn (VStr "alice") (VStr "Alice B.") VNone (VStr "alice").

(** Alice with a new primary key and a new common name. *)
Definition alice_renamed : Instance :=
  person alice_dn (VStr "alicia") (VStr "Alice B.") (VStr "a@example.com")
         (VStr "alice").

Definition bob_dn : Value := VStr "uid=bob,ou=people,dc=example,dc=com".

(** Bob as the directory has him: no mail address. *)
Definition bob : Instance :=
  person bob_dn (VStr "bob") (VStr "Bob") VNone (VStr "bob").

(** Bob with an empty string where the directory has nothing. *)
Definition bob_blank : Instance :=
  person bob_dn (VStr "bob") (VStr "Bob") (VStr "") (VStr "bob").

(** The backends of the examples: a directory that holds Alice, or Bob,
    and accepts every call; one that holds Alice and refuses to rename. *)
Definition with_alice : Backend := backend (inr alice) [].
Definition with_bob : Backend := backend (inr bob) [].
Definition no_rename : Backend := backend (inr alice) [OpRename].

Definition no_modify : Backend := backend (inr alice) [OpModify].

(** A model whose only primary key is Django's automatic [id], which has
    no directory attribute. *)
Definition Unkeyed : Class :=
  {| cls_name := "Unkeyed";
     cls_module := "people.models";
     fields := [dn_field;
                {| name := "id"; db_column := None; primary_key := true |};
                cn_field];
     base_dn := VStr "ou=misc,dc=example,dc=com";
     bound_alias := None;
     search_scope := 2;
     object_classes := ["top"];
     proxy := false |}.

(** What a run leaves, in short: the result, the trace, the directory
    state, [dn] and [saved_pk]. *)
Definition outcome {B : Backend} {A} (run : Result A * State)
    : Result A * list Event * Dir * option Value * Value :=
  (run.1, st_trace run.2, st_dir run.2,
   attrs (st_self run.2) !! "dn", saved_pk (st_self run.2)).

(** A directory that has lost Alice. *)
Definition without_alice : Backend := backend (inl DoesNotExist) [].

(** [settings.DATABASES] with one connection, and a router that sends
    every class to it. *)
Definition ldap_settings : gmap string Value :=
  <["ENGINE" := VStr "ldapdb.backends.ldap"]>
    (<["NAME" := VStr "ldap://ldap.example.com"]>
       (<["USER" := VStr "cn=admin,dc=example,dc=com"]>
          (<["PASSWORD" := VStr "secret"]> ∅))).

Definition databases : Databases := <["ldap" := ldap_settings]> ∅.

Definition to_ldap (c : Class) : Alias := "ldap".


(** A model with two mapped fields only. *)
Definition Pair : Class :=
  {| cls_name := "Pair";
     cls_module := "people.models";
     fields := [uid_field; cn_field];
     base_dn := VStr "ou=people,dc=example,dc=com";
     bound_alias := None;
     search_scope := 2;
     object_classes := ["top"];
     proxy := false |}.

End Demo.

(** ** The RDN builder, in the specification's words *)

(** The directory attribute a field is mapped to, if any. *)
Definition mapped_column (f : Field) : option string :=
  match db_column f with
  | None | Some EmptyString => None
  | Some col => Some col
  end.

(** What the specification says one field contributes to the RDN: for a
    mapped field, [attr=overrideValue] when its name is among the
    overrides, else [attr=currentFieldValue] when it is the primary-key
    field (of an instance), else nothing. *)
Definition spec_rdn_bit (self : Self) (keys : gmap string Value) (f : Field)
    : option string :=
  match mapped_column f with
  | None => None
  | Some col =>
      match keys !! name f with
      | Some v => Some (rdn_bit col v)
      | None =>
          match self with
          | OnInstance i =>
              if primary_key f
              then Some (rdn_bit col (getattr_default i (name f)))
              else None
          | OnClass _ => None
          end
      end
  end.

(** The emitted pairs, in declaration order. *)
Definition spec_rdn_bits (self : Self) (keys : gmap string Value)
    (fs : list Field) : list string :=
  omap (spec_rdn_bit self keys) fs.

(** A mapped primary-key field the overrides do not cover: its value
    would have to come from an instance. *)
Definition needs_instance (keys : gmap string Value) (f : Field) : bool :=
  bool_decide (is_Some (mapped_column f))
  && bool_decide (keys !! name f = None)
  && primary_key f.

(** A class-level call whose overrides leave such a field uncovered. *)
Definition missing_keys (self : Self) (keys : gmap string Value) : bool :=
  match self with
  | OnClass c => existsb (needs_instance keys) (fields c)
  | OnInstance _ => false
  end.

Definition wf_self (self : Self) : bool :=
  match self with
  | OnClass _ => true
  | OnInstance i => wf_instance i
  end.

(** The names [base.py] reads on [self] that are not the values of
    declared fields: the class's meta-data ([_meta], [base_dn],
    [bound_alias], [object_classes]), its methods and properties
    ([build_rdn], [build_dn], [_get_connection], [pk]), [__class__], and
    [saved_pk], which [save] assigns. The embedding reads them from the
    class (and [saved_pk] from its own record field); it is the code only
    on instances whose attribute dictionary has no entry of such a name,
    which would shadow what the class provides. *)
Definition class_attributes : list string :=
  ["_meta"; "__class__"; "base_dn"; "bound_alias"; "object_classes";
   "build_rdn"; "build_dn"; "_get_connection"; "pk"; "saved_pk"].


(** ** The save engine, in the specification's words *)

(** The calls that write to the directory. *)
Definition is_write (ev : Event) : bool :=
  match ev with
  | EvAdd _ _ _ | EvRename _ _ _ | EvModify _ _ _ | EvDelete _ _ => true
  | EvGet _ _ | EvPostSave _ _ _ | EvPostDelete _ _ => false
  end.

Section SpecWords.

Context {B : Backend}.

(** The connection [_get_connection] resolves to. *)
Definition connection_for (using_ : option Alias) (self : Instance) : Alias :=
  if truthy_alias using_ then default "" using_
  else if truthy_alias (bound_alias (cls self))
       then default "" (bound_alias (cls self))
       else db_for_write (cls self) self.

(** What the specification says one field contributes to the attribute
    list of a new entry: a mapped field with a non-empty current value
    gives its attribute with the encoded value. *)
Definition spec_entry_attr (self : Instance) (connection : Alias) (f : Field)
    : option (string * Wire) :=
  match mapped_column f with
  | None => None
  | Some col =>
      let value := getattr_default self (name f) in
      if truthy value
      then Some (col, get_db_prep_save f value connection)
      else None
  end.

Definition spec_entry (self : Instance) (connection : Alias) : Entry :=
  ("objectClass", object_classes (cls self))
  :: omap (spec_entry_attr self connection) (fields (cls self)).

(** The end of every successful [save]: [saved_pk] is refreshed, then the
    post-save signal is sent. *)
Definition post_save_state (created : bool) (key : Value) (st : State) : State :=
  let self := set_saved_pk key (st_self st) in
  log_event (EvPostSave (cls self) self created) (with_self self st).

(** The events a method has added to the trace. *)
Definition added (st st' : State) (evs : list Event) : Prop :=
  st_trace st' = st_trace st ++ evs.

(** The runs of [save] on an instance that has all its attributes: which
    call on the connection raised, if any, and the state each run leaves.
    [get] is the lookup of the update path. *)
Inductive SaveRun (connection : Alias) (st : State)
    : Result unit -> State -> Prop :=
  | RunAddRaised e dn entry :
      add_s connection dn entry (st_dir st) = inl e ->
      SaveRun connection st (inl e)
        (log_event (EvAdd connection dn entry) st)
  | RunRenameRaised e dn rdn :
      let get := EvGet (cls (st_self st)) (saved_pk (st_self st)) in
      rename_s connection dn rdn (st_dir st) = inl e ->
      SaveRun connection st (inl e)
        (log_event (EvRename connection dn rdn) (log_event get st))
  | RunModifyRaised e dn modlist :
      let get := EvGet (cls (st_self st)) (saved_pk (st_self st)) in
      modify_s connection dn modlist (st_dir st) = inl e ->
      SaveRun connection st (inl e)
        (log_event (EvModify connection dn modlist) (log_event get st))
  | RunRenamedModifyRaised e dn rdn new_dn modlist d1 :
      let get := EvGet (cls (st_self st)) (saved_pk (st_self st)) in
      rename_s connection dn rdn (st_dir st) = inr d1 ->
      modify_s connection (VStr new_dn) modlist d1 = inl e ->
      SaveRun connection st (inl e)
        (log_event (EvModify connection (VStr new_dn) modlist)
           (with_self (set_attr "dn" (VStr new_dn) (st_self st))
              (with_dir d1
                 (log_event (EvRename connection dn rdn)
                    (log_event get st)))))
  | RunOtherRaised e :
      SaveRun connection st (inl e) st
  | RunOtherRaisedAfterGet e :
      let get := EvGet (cls (st_self st)) (saved_pk (st_self st)) in
      SaveRun connection st (inl e) (log_event get st)
  | RunCreated new_dn entry d1 key :
      add_s connection (VStr new_dn) entry (st_dir st) = inr d1 ->
      SaveRun connection st (inr tt)
        (post_save_state true key
           (with_self (set_attr "dn" (VStr new_dn) (st_self st))
              (with_dir d1
                 (log_event (EvAdd connection (VStr new_dn) entry) st))))
  | RunNoop key :
      let get := EvGet (cls (st_self st)) (saved_pk (st_self st)) in
      SaveRun connection st (inr tt)
        (post_save_state false key (log_event get st))
  | RunModified dn modlist d2 key :
      let get := EvGet (cls (st_self st)) (saved_pk (st_self st)) in
      modify_s connection dn modlist (st_dir st) = inr d2 ->
      SaveRun connection st (inr tt)
        (post_save_state false key
           (with_dir d2
              (log_event (EvModify connection dn modlist)
                 (log_event get st))))
  | RunRenamedModified dn rdn new_dn modlist d1 d2 key :
      let get := EvGet (cls (st_self st)) (saved_pk (st_self st)) in
      rename_s connection dn rdn (st_dir st) = inr d1 ->
      modify_s connection (VStr new_dn) modlist d1 = inr d2 ->
      SaveRun connection st (inr tt)
        (post_save_state false key
           (with_dir d2
              (log_event (EvModify connection (VStr new_dn) modlist)
                 (with_self (set_attr "dn" (VStr new_dn) (st_self st))
                    (with_dir d1
                       (log_event (EvRename connection dn rdn)
                          (log_event get st))))))).

End SpecWords.

(** ** Tactics for traces *)

(** [trace_tail] turns a hypothesis that a run added the events [evs] to a
    known trace into the equation between the known events and [evs];
    [last_event] reads the last added event off such an equation;
    [no_post_save] proves that no post-save signal was added. *)
Ltac trace_tail Hevs :=
  unfold added in Hevs;
  cbn [st_trace log_event with_self with_dir] in Hevs;
  rewrite <- ?app_assoc in Hevs;
  first [ apply app_inv_head in Hevs
        | match type of Hevs with
          | ?t = ?t ++ _ =>
              rewrite <- (app_nil_r t) in Hevs at 1;
              apply app_inv_head in Hevs
          end ];
  simpl in Hevs.

Ltac last_event Hevs :=
  trace_tail Hevs;
  match type of Hevs with
  | [?a] = _ => apply (app_inj_tail [] _ a _) in Hevs
  | [?a; ?b] = _ => apply (app_inj_tail [a] _ b _) in Hevs
  | [?a; ?b; ?c] = _ => apply (app_inj_tail [a; b] _ c _) in Hevs
  end;
  destruct Hevs as [_ <-].

Ltac no_post_save :=
  let Hevs := fresh "Hevs" in
  intros ? ? ? ? Hevs; trace_tail Hevs;
  rewrite <- Hevs; simpl; intuition discriminate.

(** [run_cases] splits a goal about a run of [save] or [delete] into the
    cases of the tests and calls the run goes through. *)
Ltac run_cases :=
  repeat match goal with
  | |- _ =>
      progress cbn [st_self st_dir st_trace log_event with_self with_dir]
  | |- context [if ?b then _ else _] => destruct b eqn:?
  | |- context [match ?x with inl _ => _ | inr _ => _ end] => destruct x eqn:?
  end.

(** ** Lemmas on the RDN builder *)

Lemma mapped_column_Some f col :
  mapped_column f = Some col -> db_column f = Some col /\ col <> "".
Proof.
  unfold mapped_column. destruct (db_column f) as [[|a s]|]; naive_solver.
Qed.

Lemma getattr_has_attr i n :
  has_attr i n = true -> getattr i n = inr (getattr_default i n).
Proof.
  unfold has_attr, getattr, getattr_default.
  intros H%bool_decide_eq_true. destruct H as [v ->]. reflexivity.
Qed.

(** On an instance whose fields all have their attribute, the loop appends
    the specification's bits to the ones it starts from. *)
Lemma build_rdn_loop_instance i keys fs bits :
  forallb (fun f => has_attr i (name f)) fs = true ->
  build_rdn_loop (OnInstance i) keys fs bits
  = inr (bits ++ spec_rdn_bits (OnInstance i) keys fs).
Proof.
  revert bits. induction fs as [|f fs IH]; intros bits Hwf; simpl.
  - by rewrite app_nil_r.
  - apply andb_prop in Hwf as [Hf Hfs].
    unfold spec_rdn_bits in *. simpl. unfold spec_rdn_bit at 1, mapped_column.
    destruct (db_column f) as [[|a s]|]; [by apply IH| |by apply IH].
    destruct (keys !! name f) as [v|].
    + rewrite IH by done. by rewrite <- app_assoc.
    + destruct (primary_key f); [|by apply IH].
      rewrite (getattr_has_attr _ _ Hf). simpl.
      rewrite IH by done. by rewrite <- app_assoc.
Qed.

(** On a class, the loop raises as soon as it meets an uncovered mapped
    primary-key field, and otherwise appends the overrides' bits. *)
Lemma build_rdn_loop_class c keys fs bits :
  build_rdn_loop (OnClass c) keys fs bits
  = if existsb (needs_instance keys) fs then inl all_keys_error
    else inr (bits ++ spec_rdn_bits (OnClass c) keys fs).
Proof.
  revert bits. induction fs as [|f fs IH]; intros bits; simpl.
  - by rewrite app_nil_r.
  - unfold spec_rdn_bits in *. simpl.
    unfold needs_instance at 1, spec_rdn_bit at 1, mapped_column.
    destruct (db_column f) as [[|a s]|]; simpl; [by apply IH| |by apply IH].
    destruct (keys !! name f) as [v|]; simpl.
    + rewrite IH. destruct (existsb _ fs); [done|]. by rewrite <- app_assoc.
    + destruct (primary_key f); simpl; [done|by apply IH].
Qed.

(** The whole of [build_rdn], case by case. *)
Lemma build_rdn_cases self keys :
  wf_self self = true ->
  build_rdn self keys
  = if missing_keys self keys then inl all_keys_error
    else match spec_rdn_bits self keys (fields (self_class self)) with
         | [] => inl no_dn_error
         | bits => inr (String.concat "+" bits)
         end.
Proof.
  intros Hwf. unfold build_rdn. destruct self as [c|i]; simpl in *.
  - rewrite build_rdn_loop_class.
    destruct (existsb _ _); [done|]. simpl.
    by destruct (spec_rdn_bits _ _ _).
  - apply andb_prop in Hwf as [_ Hwf].
    rewrite build_rdn_loop_instance by done. simpl.
    by destruct (spec_rdn_bits _ _ _).
Qed.

(** When the overrides cover every mapped primary-key field, no bit comes
    from the instance. *)
Lemma spec_rdn_bits_covered i keys fs :
  existsb (needs_instance keys) fs = false ->
  spec_rdn_bits (OnInstance i) keys fs = spec_rdn_bits (OnClass (cls i)) keys fs.
Proof.
  unfold spec_rdn_bits. induction fs as [|f fs IH]; [done|].
  intros [Hf Hfs]%orb_false_elim.
  cut (spec_rdn_bit (OnInstance i) keys f
       = spec_rdn_bit (OnClass (cls i)) keys f).
  { intros Heq. cbn. rewrite Heq, IH by done. reflexivity. }
  unfold spec_rdn_bit, needs_instance in *.
  destruct (mapped_column f) as [col|]; [|done].
  destruct (keys !! name f) as [v|]; [done|].
  destruct (primary_key f); [|done].
  rewrite bool_decide_eq_true_2 in Hf by eauto.
  by rewrite bool_decide_eq_true_2 in Hf.
Qed.

(** With the overrides covering every mapped primary-key field, the loop
    runs on a class as it does on an instance of it. *)
Lemma build_rdn_loop_covered i c keys fs bits :
  existsb (needs_instance keys) fs = false ->
  build_rdn_loop (OnClass c) keys fs bits
  = build_rdn_loop (OnInstance i) keys fs bits.
Proof.
  revert bits. induction fs as [|f fs IH]; intros bits; simpl; [done|].
  intros [Hf Hfs]%orb_false_elim.
  unfold needs_instance, mapped_column in Hf.
  destruct (db_column f) as [[|a s]|]; simpl in *; [by apply IH| |by apply IH].
  destruct (keys !! name f) as [v|]; simpl in *; [by apply IH|].
  destruct (primary_key f); [|by apply IH].
  discriminate Hf.
Qed.

Section Properties.

Context {B : Backend}.

(** ** The RDN builder: claims C5 and C6 *)

(** C5. On every instance and for every overrides map, [build_rdn] visits
    the declared fields in declaration order, skips the fields without a
    directory attribute, emits [attr=overrideValue] for a mapped field
    named in the overrides and otherwise [attr=currentFieldValue] for the
    primary-key field only, and returns the emitted pairs joined with [+]
    (it raises when there are none). It is deterministic: it leaves the
    state as it found it, and a second call returns what the first did. *)
Theorem build_rdn_emits_in_order (i : Instance) (keys : gmap string Value) :
  wf_instance i = true ->
  build_rdn (OnInstance i) keys
  = match spec_rdn_bits (OnInstance i) keys (fields (cls i)) with
    | [] => inl no_dn_error
    | bits => inr (String.concat "+" bits)
    end
  /\ forall st : State,
       st_self st = i ->
       self_build_rdn keys st = (build_rdn (OnInstance i) keys, st)
       /\ (self_build_rdn keys;; self_build_rdn keys) st
          = self_build_rdn keys st.
Proof.
  intros Hwf. split.
  - by rewrite (build_rdn_cases (OnInstance i)).
  - intros st <-. unfold self_build_rdn, bind, get_self, lift. simpl.
    split; [done|]. by destruct (build_rdn _ _).
Qed.

(** C6. [build_rdn] fails in exactly two situations: at class level, when
    the overrides leave a mapped primary-key field uncovered
    ([all_keys_error]); and when no pair is emitted ([no_dn_error]). Both
    are identity errors. A class-level call whose overrides cover the
    required keys returns what a call on an instance returns. *)
Theorem build_rdn_fails_exactly (self : Self) (keys : gmap string Value) :
  wf_self self = true ->
  (forall e,
     build_rdn self keys = inl e <->
     (missing_keys self keys = true /\ e = all_keys_error)
     \/ (missing_keys self keys = false
         /\ spec_rdn_bits self keys (fields (self_class self)) = []
         /\ e = no_dn_error))
  /\ (forall e, build_rdn self keys = inl e -> is_IdentityError e = true)
  /\ (forall c i,
        self = OnClass c -> cls i = c -> missing_keys self keys = false ->
        build_rdn (OnClass c) keys = build_rdn (OnInstance i) keys).
Proof.
  intros Hwf. rewrite (build_rdn_cases self keys Hwf).
  split; [|split].
  - intros e. destruct (missing_keys self keys).
    + split; [intros [= <-]; by left|]. intros [[_ ->]|[? _]]; done.
    + destruct (spec_rdn_bits _ _ _) as [|b bs].
      * split; [intros [= <-]; by right|]. intros [[? _]|(_ & _ & ->)]; done.
      * split; [done|]. intros [[? _]|(_ & ? & _)]; done.
  - intros e. destruct (missing_keys self keys); [by intros [= <-]|].
    destruct (spec_rdn_bits _ _ _); [by intros [= <-]|done].
  - intros c i -> <- Hcov. simpl in Hcov. unfold build_rdn. simpl.
    by rewrite (build_rdn_loop_covered i).
Qed.

(** ** The save engine, step by step *)

Lemma get_connection_run using_ st :
  _get_connection using_ st = (inr (connection_for using_ (st_self st)), st).
Proof.
  unfold _get_connection, connection_for, bind, get_self, ret. simpl.
  destruct using_ as [[|a s]|]; simpl; try done;
    by destruct (bound_alias (cls (st_self st))) as [[|a' s']|].
Qed.

Lemma entry_loop_spec self connection fs entry :
  forallb (fun f => has_attr self (name f)) fs = true ->
  entry_loop self connection fs entry
  = inr (entry ++ omap (spec_entry_attr self connection) fs).
Proof.
  revert entry. induction fs as [|f fs IH]; intros entry Hwf; simpl.
  - by rewrite app_nil_r.
  - apply andb_prop in Hwf as [Hf Hfs].
    cbn. unfold spec_entry_attr at 1, mapped_column.
    destruct (db_column f) as [[|a s]|]; [by apply IH| |by apply IH].
    rewrite (getattr_has_attr _ _ Hf). simpl.
    destruct (truthy _); [|by apply IH].
    rewrite IH by done. by rewrite <- app_assoc.
Qed.

Lemma save_create_run connection st :
  save_create connection st
  = let self := st_self st in
    match build_dn (OnInstance self) ∅ with
    | inl e => (inl e, st)
    | inr new_dn =>
        match entry_loop self connection (fields (cls self))
                [("objectClass", object_classes (cls self))] with
        | inl e => (inl e, st)
        | inr entry =>
            let st1 := log_event (EvAdd connection (VStr new_dn) entry) st in
            match add_s connection (VStr new_dn) entry (st_dir st) with
            | inl e => (inl e, st1)
            | inr d =>
                (inr false,
                 with_self (set_attr "dn" (VStr new_dn) self) (with_dir d st1))
            end
        end
    end.
Proof.
  unfold save_create, self_build_dn, conn_add_s, ldap_call, self_setattr,
    modify_self, bind, get_self, lift, ret. simpl.
  destruct (build_dn _ _); [done|]. destruct (entry_loop _ _ _ _); [done|].
  simpl. by destruct (add_s _ _ _ _).
Qed.

Lemma getattr_set_attr n v i : getattr (set_attr n v i) n = inr v.
Proof. unfold getattr, set_attr. simpl. by rewrite lookup_insert_eq. Qed.

Lemma getattr_set_attr_ne n m v i :
  n <> m -> getattr (set_attr n v i) m = getattr i m.
Proof.
  intros Hne. unfold getattr, set_attr. simpl. by rewrite lookup_insert_ne.
Qed.

Lemma save_update_run connection st :
  save_update connection st
  = let self := st_self st in
    let st0 := log_event (EvGet (cls self) (saved_pk self)) st in
    match objects_get (cls self) (saved_pk self) (st_dir st) with
    | inl e => (inl e, st0)
    | inr orig =>
        let modlist :=
          modlist_loop orig self connection (fields (cls self)) [] in
        if Nat.eqb (length modlist) 0 then (inr true, st0)
        else
          match build_dn (OnInstance self) ∅ with
          | inl e => (inl e, st0)
          | inr new_dn =>
              match getattr self "dn" with
              | inl e => (inl e, st0)
              | inr dn =>
                  if py_ne (VStr new_dn) dn then
                    match build_rdn (OnInstance self) ∅ with
                    | inl e => (inl e, st0)
                    | inr rdn =>
                        let st1 := log_event (EvRename connection dn rdn) st0 in
                        match rename_s connection dn rdn (st_dir st) with
                        | inl e => (inl e, st1)
                        | inr d1 =>
                            let st2 :=
                              log_event
                                (EvModify connection (VStr new_dn) modlist)
                                (with_self (set_attr "dn" (VStr new_dn) self)
                                   (with_dir d1 st1)) in
                            match modify_s connection (VStr new_dn) modlist d1
                            with
                            | inl e => (inl e, st2)
                            | inr d2 => (inr true, with_dir d2 st2)
                            end
                        end
                    end
                  else
                    let st1 := log_event (EvModify connection dn modlist) st0 in
                    match modify_s connection dn modlist (st_dir st) with
                    | inl e => (inl e, st1)
                    | inr d2 => (inr true, with_dir d2 st1)
                    end
              end
          end
    end.
Proof.
  unfold save_update, manager_get, self_build_dn, self_build_rdn, self_getattr,
    conn_rename_s, conn_modify_s, ldap_call, self_setattr, modify_self, bind,
    get_self, lift, ret. simpl.
  destruct (objects_get _ _ _) as [e|orig]; [done|].
  destruct (Nat.eqb _ 0); [done|]. simpl.
  destruct (build_dn _ _) as [e|new_dn]; [done|].
  destruct (getattr (st_self st) "dn") as [e|dn] eqn:Hdn; [done|].
  destruct (py_ne _ _); simpl.
  - rewrite ?Hdn. destruct (build_rdn _ _) as [e|rdn]; [done|]. simpl.
    destruct (rename_s _ _ _ _) as [e|d1]; [done|]. simpl.
    rewrite getattr_set_attr. simpl.
    by destruct (modify_s _ _ _ _).
  - rewrite ?Hdn. simpl. by destruct (modify_s _ _ _ _).
Qed.

Lemma save_run using_ st :
  save using_ st
  = let connection := connection_for using_ (st_self st) in
    match getattr (st_self st) "dn" with
    | inl e => (inl e, st)
    | inr dn =>
        match (if negb (truthy dn) then save_create connection st
               else save_update connection st) with
        | (inl e, st1) => (inl e, st1)
        | (inr record_exists, st1) =>
            match pk (st_self st1) with
            | inl e => (inl e, st1)
            | inr key => (inr tt, post_save_state (negb record_exists) key st1)
            end
        end
    end.
Proof.
  unfold save. unfold bind at 1. rewrite get_connection_run.
  unfold self_getattr, bind, get_self, lift, modify_self, send,
    post_save_state. simpl.
  destruct (getattr (st_self st) "dn") as [e|dn]; [done|].
  by destruct (negb (truthy dn)).
Qed.

(** ** The primary key of an instance that has an RDN *)

Lemma wf_set_attr n v i :
  wf_instance i = true -> wf_instance (set_attr n v i) = true.
Proof.
  unfold wf_instance, has_attr, set_attr. simpl.
  intros [Hdn Hfs]%andb_prop. apply andb_true_intro. split.
  - apply bool_decide_eq_true in Hdn. apply bool_decide_eq_true.
    destruct (decide (n = "dn")) as [->|Hne];
      [rewrite lookup_insert_eq; eauto | by rewrite lookup_insert_ne].
  - rewrite forallb_forall in *. intros f Hf. specialize (Hfs f Hf).
    apply bool_decide_eq_true in Hfs. apply bool_decide_eq_true.
    destruct (decide (n = name f)) as [->|Hne];
      [rewrite lookup_insert_eq; eauto | by rewrite lookup_insert_ne].
Qed.

Lemma spec_rdn_bits_pk i fs :
  spec_rdn_bits (OnInstance i) ∅ fs <> [] -> exists f, In f fs /\ primary_key f = true.
Proof.
  unfold spec_rdn_bits. induction fs as [|f fs IH]; [done|].
  cbn. unfold spec_rdn_bit at 1. rewrite lookup_empty.
  destruct (primary_key f) eqn:Hpk.
  - intros _. exists f. split; [by left|done].
  - destruct (mapped_column f); intros H; destruct (IH H) as (g & Hg & Hgpk);
      exists g; (split; [by right|done]).
Qed.

(** An instance with an RDN has a primary-key field, and an instance that
    has all its attributes has a value for it. *)
Lemma rdn_pk_field i rdn :
  wf_instance i = true ->
  build_rdn (OnInstance i) ∅ = inr rdn ->
  exists f, In f (fields (cls i)) /\ primary_key f = true.
Proof.
  intros Hwf Hrdn. rewrite (build_rdn_cases (OnInstance i)) in Hrdn by done.
  simpl in Hrdn. apply (spec_rdn_bits_pk i).
  intros Hnil. by rewrite Hnil in Hrdn.
Qed.

Lemma pk_wf i f :
  wf_instance i = true ->
  In f (fields (cls i)) -> primary_key f = true ->
  exists key, pk i = inr key.
Proof.
  intros Hwf Hf Hpk. unfold pk, meta_pk.
  destruct (List.find primary_key (fields (cls i))) as [g|] eqn:Hfind.
  - apply find_some in Hfind as [Hg _].
    apply andb_prop in Hwf as [_ Hfs]. rewrite forallb_forall in Hfs.
    rewrite (getattr_has_attr _ _ (Hfs g Hg)). eauto.
  - by rewrite (find_none _ _ Hfind f Hf) in Hpk.
Qed.

Lemma pk_set_saved_pk key i : pk (set_saved_pk key i) = pk i.
Proof. reflexivity. Qed.

Lemma build_dn_rdn self keys dn :
  build_dn self keys = inr dn ->
  exists rdn, build_rdn self keys = inr rdn
              /\ dn = rdn +:+ "," +:+ py_str (base_dn (self_class self)).
Proof.
  unfold build_dn. destruct (build_rdn self keys) as [e|rdn]; [done|].
  simpl. intros [= <-]. eauto.
Qed.

(** ** The create path: claim C3 *)

(** C3. A save on a record whose [dn] is empty issues exactly one add call,
    at [build_dn()] (which is [build_rdn()], a comma and the base DN), with
    [objectClass] and, for every mapped field with a non-empty value, its
    attribute with the encoded value. If the call raises, nothing else
    happens; if it returns, [dn] is set to that address and the post-save
    signal is sent with [created = true]. *)
Theorem save_creates_entry (using_ : option Alias) (st : State)
    (d : Value) (new_dn : string) :
  let self := st_self st in
  let connection := connection_for using_ self in
  let entry := spec_entry self connection in
  let add := EvAdd connection (VStr new_dn) entry in
  wf_instance self = true ->
  getattr self "dn" = inr d ->
  truthy d = false ->
  build_dn (OnInstance self) ∅ = inr new_dn ->
  (exists rdn, build_rdn (OnInstance self) ∅ = inr rdn
               /\ new_dn = rdn +:+ "," +:+ py_str (base_dn (cls self)))
  /\ match add_s connection (VStr new_dn) entry (st_dir st) with
     | inl e => save using_ st = (inl e, log_event add st)
     | inr d' =>
         exists key st',
           save using_ st = (inr tt, st')
           /\ st_self st'
              = set_saved_pk key (set_attr "dn" (VStr new_dn) self)
           /\ getattr (st_self st') "dn" = inr (VStr new_dn)
           /\ pk (st_self st') = inr key
           /\ st_dir st' = d'
           /\ added st st' [add; EvPostSave (cls self) (st_self st') true]
     end.
Proof.
  intros self connection entry add Hwf Hdn Hempty Hbuild.
  destruct (build_dn_rdn _ _ _ Hbuild) as (rdn & Hrdn & Hnew).
  split; [by exists rdn|].
  rewrite save_run. fold self connection. rewrite Hdn, Hempty. simpl.
  rewrite save_create_run. fold self. simpl. rewrite Hbuild.
  pose proof Hwf as [_ Hfs]%andb_prop.
  rewrite entry_loop_spec by done. simpl.
  fold (spec_entry self connection). fold entry. fold add.
  destruct (add_s connection (VStr new_dn) entry (st_dir st)) as [e|d'];
    [done|]. simpl.
  destruct (rdn_pk_field self rdn Hwf Hrdn) as (f & Hf & Hpk).
  destruct (pk_wf (set_attr "dn" (VStr new_dn) self) f) as [key Hkey];
    [by apply wf_set_attr|done|done|].
  rewrite Hkey. eexists key, _. split; [reflexivity|]. simpl.
  split_and!; try done.
  - apply getattr_set_attr.
  - unfold added. simpl. by rewrite <- app_assoc.
Qed.

(** ** The diff of the update path: claims C1 and C10 *)

Lemma modlist_loop_acc orig self connection fs acc :
  modlist_loop orig self connection fs acc
  = acc ++ modlist_loop orig self connection fs [].
Proof.
  revert acc. induction fs as [|f fs IH]; intros acc; simpl.
  - by rewrite app_nil_r.
  - destruct (db_column f) as [[|a s]|]; [by apply IH| |by apply IH].
    destruct (py_ne _ _); [|by apply IH].
    destruct (truthy (getattr_default self (name f))).
    { rewrite IH, (IH [_]). by rewrite <- app_assoc. }
    destruct (truthy (getattr_default orig (name f))); [|by apply IH].
    rewrite IH, (IH [_]). by rewrite <- app_assoc.
Qed.

Lemma modlist_loop_app orig self connection fs1 fs2 acc :
  modlist_loop orig self connection (fs1 ++ fs2) acc
  = modlist_loop orig self connection fs2
      (modlist_loop orig self connection fs1 acc).
Proof.
  revert acc. induction fs1 as [|f fs1 IH]; intros acc; simpl; [done|].
  destruct (db_column f) as [[|a s]|]; [by apply IH| |by apply IH].
  destruct (py_ne _ _); [|by apply IH].
  destruct (truthy (getattr_default self (name f))); [by apply IH|].
  destruct (truthy (getattr_default orig (name f))); by apply IH.
Qed.

(** The list the loop builds, split at one field: what the fields before
    it queue, what it queues itself, what the fields after it queue. *)
Lemma modlist_loop_split orig self connection pre f post :
  modlist_loop orig self connection (pre ++ f :: post) []
  = modlist_loop orig self connection pre []
    ++ modlist_loop orig self connection [f] []
    ++ modlist_loop orig self connection post [].
Proof.
  rewrite modlist_loop_app.
  change (f :: post) with ([f] ++ post). rewrite modlist_loop_app.
  rewrite modlist_loop_acc.
  rewrite (modlist_loop_acc _ _ _ [f] (modlist_loop _ _ _ pre [])).
  by rewrite <- app_assoc.
Qed.

(** In update mode every modification list handed to the connection is
    the one the loop built, and it is not empty. *)
Lemma save_update_modlist using_ st d orig r st' :
  let self := st_self st in
  let connection := connection_for using_ self in
  getattr self "dn" = inr d -> truthy d = true ->
  objects_get (cls self) (saved_pk self) (st_dir st) = inr orig ->
  save using_ st = (r, st') ->
  exists evs,
    added st st' evs
    /\ forall c dn m, In (EvModify c dn m) evs ->
         m = modlist_loop orig self connection (fields (cls self)) []
         /\ m <> [].
Proof.
  intros self connection Hdn Htrue Horig.
  rewrite save_run. fold self connection. rewrite Hdn, Htrue. simpl.
  rewrite save_update_run. fold self. simpl. rewrite Horig.
  set (ml := modlist_loop orig self connection (fields (cls self)) []).
  assert (Hml : Nat.eqb (length ml) 0 = false -> ml <> []).
  { intros H ->. discriminate H. }
  unfold added.
  repeat match goal with
  | |- context [if ?b then _ else _] => destruct b eqn:?
  | |- context [match ?x with inl _ => _ | inr _ => _ end] => destruct x eqn:?
  end;
  intros [= <- <-]; simpl; rewrite <- ?app_assoc; simpl;
  eexists; (split; [reflexivity|]);
  intros c dn m Hin; simpl in Hin; intuition (try discriminate);
  match goal with H : EvModify _ _ _ = EvModify _ _ _ |- _ =>
    injection H as <- <- <- end; done.
Qed.

(** What one mapped field queues, by the three tests of the loop. *)
Lemma modlist_loop_field orig self connection f col :
  mapped_column f = Some col ->
  let old_value := getattr_default orig (name f) in
  let new_value := getattr_default self (name f) in
  modlist_loop orig self connection [f] []
  = if py_ne old_value new_value then
      if truthy new_value then
        [(MOD_REPLACE, col, Some (get_db_prep_save f new_value connection))]
      else if truthy old_value then [(MOD_DELETE, col, None)]
      else []
    else [].
Proof.
  intros [Hcol Hne]%mapped_column_Some. simpl. rewrite Hcol.
  destruct col as [|a s]; [done|]. reflexivity.
Qed.

Lemma py_ne_true a b : a <> b -> py_ne a b = true.
Proof. intros H. unfold py_ne, py_eq. by rewrite bool_decide_eq_false_2. Qed.

Lemma py_ne_false a b : a = b -> py_ne a b = false.
Proof. intros H. unfold py_ne, py_eq. by rewrite bool_decide_eq_true_2. Qed.

Lemma py_ne_inv a b : py_ne a b = true -> a <> b.
Proof.
  unfold py_ne, py_eq. intros H Heq.
  by rewrite bool_decide_eq_true_2 in H.
Qed.

(** In update mode a queue that is not empty is sent: once [build_dn] has
    returned, the run calls [modify_s] with the queue, unless the rename
    before it raised; and a run that returns has made that call. *)
Lemma save_update_sends using_ st d orig r st' :
  let self := st_self st in
  let connection := connection_for using_ self in
  let modlist := modlist_loop orig self connection (fields (cls self)) [] in
  getattr self "dn" = inr d -> truthy d = true ->
  objects_get (cls self) (saved_pk self) (st_dir st) = inr orig ->
  save using_ st = (r, st') ->
  exists evs,
    added st st' evs
    /\ (forall c dn m, In (EvModify c dn m) evs -> m = modlist)
    /\ (modlist <> [] ->
        forall new_dn, build_dn (OnInstance self) ∅ = inr new_dn ->
        (exists dn, In (EvModify connection dn modlist) evs)
        \/ (VStr new_dn <> d
            /\ exists rdn e,
                 build_rdn (OnInstance self) ∅ = inr rdn
                 /\ rename_s connection d rdn (st_dir st) = inl e
                 /\ r = inl e))
    /\ (r = inr tt -> modlist <> [] ->
        exists dn, In (EvModify connection dn modlist) evs).
Proof.
  intros self connection modlist Hdn Htrue Horig.
  rewrite save_run. cbv zeta. fold self connection. rewrite Hdn, Htrue. simpl.
  rewrite save_update_run. cbv zeta. fold self. rewrite Horig. fold modlist.
  unfold added, post_save_state.
  destruct modlist as [|m0 ml] eqn:Hml.
  { simpl. fold self. destruct (pk self) as [e|key]; intros [= <- <-]; simpl;
      rewrite <- ?app_assoc; (eexists; split; [reflexivity|]);
      (split_and!; [|done|done]);
      intros c dn m Hin; simpl in Hin; intuition discriminate. }
  simpl.
  destruct (build_dn (OnInstance self) ∅) as [e|nd] eqn:Hbuild.
  { intros [= <- <-]; simpl. eexists. split; [reflexivity|].
    split_and!; [|done|done].
    intros c dn m Hin; simpl in Hin; intuition discriminate. }
  destruct (build_dn_rdn _ _ _ Hbuild) as (rdn & Hrdn & _).
  rewrite Hdn, Hrdn.
  destruct (py_ne (VStr nd) d) eqn:Hne.
  - apply py_ne_inv in Hne.
    destruct (rename_s connection d rdn (st_dir st)) as [e|d1] eqn:Hren.
    { intros [= <- <-]; simpl. rewrite <- ?app_assoc.
      eexists. split; [reflexivity|]. split_and!; [| |done].
      - intros c dn m Hin; simpl in Hin; intuition discriminate.
      - intros _ new_dn [= <-]. right. split; [done|]. by exists rdn, e. }
    destruct (modify_s connection (VStr nd) (m0 :: ml) d1) as [e|d2].
    { intros [= <- <-]; simpl. rewrite <- ?app_assoc.
      eexists. split; [reflexivity|]. split_and!; [| |done].
      - intros c dn m Hin; simpl in Hin.
        destruct Hin as [|[|[[= _ _ <-]|[]]]]; done.
      - intros _ new_dn _. left. exists (VStr nd). simpl. auto. }
    cbn [st_self log_event with_self with_dir].
    destruct (pk _) as [e|key]; intros [= <- <-]; simpl; rewrite <- ?app_assoc;
      (eexists; split; [reflexivity|]); (split_and!; [| |try done]).
    all: try (intros c dn m Hin; simpl in Hin;
              repeat destruct Hin as [Hin|Hin]; try done;
              by injection Hin as _ _ <-).
    all: try (intros _ new_dn _; left; exists (VStr nd); simpl; auto).
    intros _ _. exists (VStr nd). simpl. auto.
  - destruct (modify_s connection d (m0 :: ml) (st_dir st)) as [e|d2].
    { intros [= <- <-]; simpl. rewrite <- ?app_assoc.
      eexists. split; [reflexivity|]. split_and!; [| |done].
      - intros c dn m Hin; simpl in Hin.
        destruct Hin as [|[[= _ _ <-]|[]]]; done.
      - intros _ new_dn _. left. exists d. simpl. auto. }
    cbn [st_self log_event with_self with_dir].
    destruct (pk _) as [e|key]; intros [= <- <-]; simpl; rewrite <- ?app_assoc;
      (eexists; split; [reflexivity|]); (split_and!; [| |try done]).
    all: try (intros c dn m Hin; simpl in Hin;
              repeat destruct Hin as [Hin|Hin]; try done;
              by injection Hin as _ _ <-).
    all: try (intros _ new_dn _; left; exists d; simpl; auto).
    intros _ _. exists d. simpl. auto.
Qed.

(** C1. During a save in update mode, for every mapped field, with the
    value of the re-fetched original and the current value: if they
    differ and the new one is non-empty, a [MOD_REPLACE] of the attribute
    with the encoded new value is queued; if they differ, the new one is
    empty and the old one was not, a [MOD_DELETE] of the attribute with no
    value is queued; if they are equal, nothing is queued. The queue is
    what [save] hands to [modify_s], and a queue that is not empty is
    handed over: once [build_dn] has returned, the run calls [modify_s] with
    it unless the rename before it raised, and every save that returns has
    made that call. *)
Theorem save_queues_by_field (using_ : option Alias) (st : State)
    (d : Value) (orig : Instance) (pre post : list Field) (f : Field)
    (col : string) :
  let self := st_self st in
  let connection := connection_for using_ self in
  let old_value := getattr_default orig (name f) in
  let new_value := getattr_default self (name f) in
  let modlist := modlist_loop orig self connection (fields (cls self)) [] in
  let queued (X : Modlist) :=
    modlist = modlist_loop orig self connection pre [] ++ X
              ++ modlist_loop orig self connection post [] in
  getattr self "dn" = inr d -> truthy d = true ->
  objects_get (cls self) (saved_pk self) (st_dir st) = inr orig ->
  fields (cls self) = pre ++ f :: post ->
  mapped_column f = Some col ->
  (old_value <> new_value -> truthy new_value = true ->
   queued [(MOD_REPLACE, col,
            Some (get_db_prep_save f new_value connection))])
  /\ (old_value <> new_value -> truthy new_value = false ->
      truthy old_value = true ->
      queued [(MOD_DELETE, col, None)])
  /\ (old_value = new_value -> queued [])
  /\ (forall r st', save using_ st = (r, st') ->
        exists evs,
          added st st' evs
          /\ (forall c dn m, In (EvModify c dn m) evs -> m = modlist)
          /\ (modlist <> [] ->
              forall new_dn, build_dn (OnInstance self) ∅ = inr new_dn ->
              (exists dn, In (EvModify connection dn modlist) evs)
              \/ (VStr new_dn <> d
                  /\ exists rdn e,
                       build_rdn (OnInstance self) ∅ = inr rdn
                       /\ rename_s connection d rdn (st_dir st) = inl e
                       /\ r = inl e))
          /\ (r = inr tt -> modlist <> [] ->
              exists dn, In (EvModify connection dn modlist) evs)).
Proof.
  intros self connection old_value new_value modlist queued
    Hdn Htrue Horig Hfields Hcol.
  assert (Hsplit : forall X,
    modlist_loop orig self connection [f] [] = X -> queued X).
  { intros X <-. unfold queued, modlist. rewrite Hfields.
    apply modlist_loop_split. }
  pose proof (modlist_loop_field orig self connection f col Hcol) as Hf.
  cbv zeta in Hf. fold self old_value new_value in Hf.
  split_and!.
  - intros Hne Hnew. apply Hsplit. by rewrite Hf, py_ne_true, Hnew.
  - intros Hne Hnew Hold. apply Hsplit. by rewrite Hf, py_ne_true, Hnew, Hold.
  - intros Heq. apply Hsplit. by rewrite Hf, py_ne_false.
  - intros r st' Hsave.
    exact (save_update_sends using_ st d orig r st' Hdn Htrue Horig Hsave).
Qed.

Lemma modlist_loop_unmapped orig self connection f :
  mapped_column f = None -> modlist_loop orig self connection [f] [] = [].
Proof.
  unfold mapped_column. simpl. by destruct (db_column f) as [[|a s]|].
Qed.

(** The queue is empty when every mapped field is unchanged, or changed
    between two empty values. *)
Lemma modlist_loop_nil orig self connection fs :
  (forall f col, In f fs -> mapped_column f = Some col ->
     getattr_default orig (name f) = getattr_default self (name f)
     \/ (truthy (getattr_default orig (name f)) = false
         /\ truthy (getattr_default self (name f)) = false)) ->
  modlist_loop orig self connection fs [] = [].
Proof.
  induction fs as [|f fs IH]; intros Hall; [done|].
  change (f :: fs) with ([f] ++ fs). rewrite modlist_loop_app.
  assert (Hf : modlist_loop orig self connection [f] [] = []).
  { destruct (mapped_column f) as [col|] eqn:Hcol;
      [|by apply modlist_loop_unmapped].
    rewrite (modlist_loop_field _ _ _ _ _ Hcol).
    destruct (Hall f col) as [Heq|[Hold Hnew]]; [by left|done| |].
    - by rewrite py_ne_false.
    - rewrite Hnew, Hold. by destruct (py_ne _ _). }
  rewrite Hf. apply IH. intros g col Hg. apply Hall. by right.
Qed.

(** An update with an empty queue: the lookup, nothing on the connection,
    then the end of [save]. *)
Lemma save_noop_run using_ st d orig :
  let self := st_self st in
  let connection := connection_for using_ self in
  let st0 := log_event (EvGet (cls self) (saved_pk self)) st in
  getattr self "dn" = inr d -> truthy d = true ->
  objects_get (cls self) (saved_pk self) (st_dir st) = inr orig ->
  modlist_loop orig self connection (fields (cls self)) [] = [] ->
  save using_ st
  = match pk self with
    | inl e => (inl e, st0)
    | inr key => (inr tt, post_save_state false key st0)
    end.
Proof.
  intros self connection st0 Hdn Htrue Horig Hnil.
  rewrite save_run. fold self connection. rewrite Hdn, Htrue. simpl.
  rewrite save_update_run. fold self. simpl. rewrite Horig, Hnil. reflexivity.
Qed.

Lemma save_create_trace connection st r st1 :
  save_create connection st = (r, st1) -> exists evs, added st st1 evs.
Proof.
  rewrite save_create_run. unfold added. simpl.
  repeat match goal with
  | |- context [match ?x with inl _ => _ | inr _ => _ end] => destruct x
  end; intros [= <- <-]; simpl; eauto using app_nil_r.
Qed.

Lemma save_update_trace connection st r st1 :
  save_update connection st = (r, st1) -> exists evs, added st st1 evs.
Proof.
  rewrite save_update_run. unfold added. simpl.
  repeat match goal with
  | |- context [if ?b then _ else _] => destruct b
  | |- context [match ?x with inl _ => _ | inr _ => _ end] => destruct x
  end; intros [= <- <-]; simpl; rewrite <- ?app_assoc; eauto.
Qed.

(** An update with an empty queue writes nothing to the directory. *)
Lemma save_noop_no_write using_ st d orig r st' :
  let self := st_self st in
  let connection := connection_for using_ self in
  getattr self "dn" = inr d -> truthy d = true ->
  objects_get (cls self) (saved_pk self) (st_dir st) = inr orig ->
  modlist_loop orig self connection (fields (cls self)) [] = [] ->
  save using_ st = (r, st') ->
  st_dir st' = st_dir st
  /\ exists evs, added st st' evs /\ filter is_write evs = [].
Proof.
  intros self connection Hdn Htrue Horig Hnil.
  rewrite (save_noop_run using_ st d orig Hdn Htrue Horig Hnil).
  fold self. unfold added.
  destruct (pk self) as [e|key]; intros [= <- <-]; simpl;
    (split; [done|]); rewrite <- ?app_assoc; eauto.
Qed.

(** C10. In update mode, a mapped field whose old and new values differ
    but are both empty queues nothing; so when every mapped field is
    unchanged or changed in that way, the queue is empty and the save
    makes no rename and no modify call. *)
Theorem save_drops_empty_to_empty (using_ : option Alias) (st : State)
    (d : Value) (orig : Instance) :
  let self := st_self st in
  let connection := connection_for using_ self in
  let old_value f := getattr_default orig (name f) in
  let new_value f := getattr_default self (name f) in
  let modlist := modlist_loop orig self connection (fields (cls self)) [] in
  getattr self "dn" = inr d -> truthy d = true ->
  objects_get (cls self) (saved_pk self) (st_dir st) = inr orig ->
  (forall pre f post col,
     fields (cls self) = pre ++ f :: post ->
     mapped_column f = Some col ->
     old_value f <> new_value f ->
     truthy (old_value f) = false -> truthy (new_value f) = false ->
     modlist = modlist_loop orig self connection pre []
               ++ modlist_loop orig self connection post [])
  /\ ((forall f col, In f (fields (cls self)) -> mapped_column f = Some col ->
         old_value f = new_value f
         \/ (truthy (old_value f) = false /\ truthy (new_value f) = false)) ->
      modlist = []
      /\ forall r st', save using_ st = (r, st') ->
           st_dir st' = st_dir st
           /\ exists evs, added st st' evs /\ filter is_write evs = []).
Proof.
  intros self connection old_value new_value modlist Hdn Htrue Horig. split.
  - intros pre f post col Hfields Hcol Hne Hold Hnew.
    unfold modlist. rewrite Hfields, modlist_loop_split.
    rewrite (modlist_loop_field _ _ _ _ _ Hcol).
    fold (old_value f) (new_value f). by rewrite py_ne_true, Hnew, Hold.
  - intros Hall.
    assert (Hnil : modlist = []) by by apply modlist_loop_nil.
    split; [done|]. intros r st'.
    by apply (save_noop_no_write using_ st d orig).
Qed.

(** ** The no-op update and the end of every save: claim C4 *)

(** C4. An update whose queue is empty makes no modify and no rename call,
    and still ends as every successful save does: [saved_pk] is set to the
    current primary-key value and the post-save signal is sent. *)
Theorem save_noop_and_identity (using_ : option Alias) (st : State) :
  let self := st_self st in
  let connection := connection_for using_ self in
  (forall d orig,
     getattr self "dn" = inr d -> truthy d = true ->
     objects_get (cls self) (saved_pk self) (st_dir st) = inr orig ->
     modlist_loop orig self connection (fields (cls self)) [] = [] ->
     (forall r st', save using_ st = (r, st') ->
        st_dir st' = st_dir st
        /\ exists evs, added st st' evs /\ filter is_write evs = [])
     /\ (forall key, pk self = inr key ->
           save using_ st
           = (inr tt,
              post_save_state false key
                (log_event (EvGet (cls self) (saved_pk self)) st))))
  /\ (forall st', save using_ st = (inr tt, st') ->
        pk (st_self st') = inr (saved_pk (st_self st'))
        /\ exists d evs,
             getattr self "dn" = inr d
             /\ added st st'
                  (evs ++ [EvPostSave (cls (st_self st')) (st_self st')
                             (negb (truthy d))])).
Proof.
  intros self connection. split.
  - intros d orig Hdn Htrue Horig Hnil. split.
    + intros r st'. by apply (save_noop_no_write using_ st d orig).
    + intros key Hkey.
      rewrite (save_noop_run using_ st d orig Hdn Htrue Horig Hnil).
      fold self. by rewrite Hkey.
  - intros st'. rewrite save_run. cbv zeta. fold self connection.
    destruct (getattr self "dn") as [e|d] eqn:Hdn; [done|].
    destruct (if negb (truthy d) then save_create connection st
              else save_update connection st) as [[e|re] st1] eqn:Hbranch;
      cbn beta iota; [done|].
    assert (re = truthy d /\ exists evs, added st st1 evs) as [-> [evs Hevs]].
    { destruct (truthy d); simpl in Hbranch.
      - split; [|by eapply save_update_trace].
        revert Hbranch. rewrite save_update_run. simpl.
        repeat match goal with
        | |- context [if ?b then _ else _] => destruct b
        | |- context [match ?x with inl _ => _ | inr _ => _ end] => destruct x
        end; by intros [= <- <-].
      - split; [|by eapply save_create_trace].
        revert Hbranch. rewrite save_create_run. simpl.
        repeat match goal with
        | |- context [match ?x with inl _ => _ | inr _ => _ end] => destruct x
        end; by intros [= <- <-]. }
    destruct (pk (st_self st1)) as [e|key] eqn:Hkey; [done|].
    intros [= <-]. simpl. split; [done|].
    exists d, evs. split; [done|]. unfold added in *. simpl.
    by rewrite Hevs, <- app_assoc.
Qed.

(** ** Rename before modify: claim C2 *)

(** C2. An update whose queue is not empty and whose recomputed DN differs
    from [dn] issues the rename, to [build_rdn()] with no overrides, before
    the modify, and the modify is addressed at the new DN. (If the rename
    raises, no modify is issued.) *)
Theorem save_renames_before_modify (using_ : option Alias) (st : State)
    (d : Value) (orig : Instance) (new_dn : string) :
  let self := st_self st in
  let connection := connection_for using_ self in
  let modlist := modlist_loop orig self connection (fields (cls self)) [] in
  wf_instance self = true ->
  getattr self "dn" = inr d -> truthy d = true ->
  objects_get (cls self) (saved_pk self) (st_dir st) = inr orig ->
  modlist <> [] ->
  build_dn (OnInstance self) ∅ = inr new_dn ->
  VStr new_dn <> d ->
  exists rdn,
    build_rdn (OnInstance self) ∅ = inr rdn
    /\ let get := EvGet (cls self) (saved_pk self) in
       let rename := EvRename connection d rdn in
       let modify := EvModify connection (VStr new_dn) modlist in
       match rename_s connection d rdn (st_dir st) with
       | inl e => save using_ st = (inl e, log_event rename (log_event get st))
       | inr d1 =>
           match modify_s connection (VStr new_dn) modlist d1 with
           | inl e =>
               exists st',
                 save using_ st = (inl e, st')
                 /\ st_self st' = set_attr "dn" (VStr new_dn) self
                 /\ st_dir st' = d1
                 /\ added st st' [get; rename; modify]
           | inr d2 =>
               exists key st',
                 save using_ st = (inr tt, st')
                 /\ st_self st'
                    = set_saved_pk key (set_attr "dn" (VStr new_dn) self)
                 /\ st_dir st' = d2
                 /\ added st st'
                      [get; rename; modify;
                       EvPostSave (cls self) (st_self st') false]
           end
       end.
Proof.
  intros self connection modlist Hwf Hdn Htrue Horig Hml Hbuild Hne.
  destruct (build_dn_rdn _ _ _ Hbuild) as (rdn & Hrdn & Hnew).
  exists rdn. split; [done|]. cbv zeta.
  rewrite save_run. cbv zeta. fold self connection. rewrite Hdn, Htrue. simpl.
  rewrite save_update_run. cbv zeta. fold self. rewrite Horig. fold modlist.
  destruct modlist as [|m ml] eqn:Hmodlist; [done|]. simpl.
  rewrite Hbuild, Hdn, (py_ne_true _ _ Hne), Hrdn.
  destruct (rename_s connection d rdn (st_dir st)) as [e|d1]; [done|].
  destruct (modify_s connection (VStr new_dn) (m :: ml) d1) as [e|d2].
  - eexists. split; [reflexivity|]. simpl. split_and!; try done.
    unfold added. simpl. by rewrite <- !app_assoc.
  - simpl.
    destruct (rdn_pk_field self rdn Hwf Hrdn) as (f & Hf & Hpk).
    destruct (pk_wf (set_attr "dn" (VStr new_dn) self) f) as [key Hkey];
      [by apply wf_set_attr|done|done|].
    rewrite Hkey. eexists key, _. split; [reflexivity|]. simpl.
    split_and!; try done.
    unfold added. simpl. by rewrite <- !app_assoc.
Qed.

(** ** Failures of the directory client: claim C7 *)

(** Every run of [save] on an instance that has all its attributes is one
    of the runs of [SaveRun]. *)
Lemma save_is_SaveRun using_ st r st' :
  wf_instance (st_self st) = true ->
  save using_ st = (r, st') ->
  SaveRun (connection_for using_ (st_self st)) st r st'.
Proof.
  intros Hwf. rewrite save_run. cbv zeta.
  set (self := st_self st). set (connection := connection_for using_ self).
  destruct (getattr self "dn") as [e|d] eqn:Hdn;
    [intros [= <- <-]; constructor|].
  destruct (truthy d) eqn:Htrue; cbn [negb].
  - rewrite save_update_run. cbv zeta. fold self.
    destruct (objects_get _ _ _) as [e|orig];
      [intros [= <- <-]; apply RunOtherRaisedAfterGet|].
    set (modlist := modlist_loop orig self connection (fields (cls self)) []).
    destruct (Nat.eqb (length modlist) 0).
    { cbn [st_self log_event]. fold self. destruct (pk self) as [e|key];
        intros [= <- <-]; [apply RunOtherRaisedAfterGet|apply RunNoop]. }
    destruct (build_dn (OnInstance self) ∅) as [e|new_dn] eqn:Hbuild;
      [intros [= <- <-]; apply RunOtherRaisedAfterGet|].
    destruct (build_dn_rdn _ _ _ Hbuild) as (rdn & Hrdn & Hnew).
    destruct (rdn_pk_field self rdn Hwf Hrdn) as (f & Hf & Hpk).
    destruct (pk_wf self f Hwf Hf Hpk) as [key Hkey].
    destruct (pk_wf (set_attr "dn" (VStr new_dn) self) f) as [key' Hkey'];
      [by apply wf_set_attr|done|done|].
    rewrite Hrdn, Hdn.
    destruct (py_ne (VStr new_dn) d).
    + destruct (rename_s connection d rdn (st_dir st)) as [e|d1] eqn:Hren;
        [intros [= <- <-]; by apply RunRenameRaised|].
      destruct (modify_s connection (VStr new_dn) modlist d1) as [e|d2] eqn:Hmod.
      * intros [= <- <-]. by eapply RunRenamedModifyRaised.
      * cbn [st_self log_event with_self with_dir]. fold self.
        rewrite Hkey'. intros [= <- <-]. by eapply RunRenamedModified.
    + destruct (modify_s connection d modlist (st_dir st)) as [e|d2] eqn:Hmod.
      * intros [= <- <-]. by apply RunModifyRaised.
      * cbn [st_self log_event with_self with_dir]. fold self.
        rewrite Hkey. intros [= <- <-]. by apply RunModified.
  - rewrite save_create_run. cbv zeta. fold self.
    destruct (build_dn (OnInstance self) ∅) as [e|new_dn] eqn:Hbuild;
      [intros [= <- <-]; constructor|].
    destruct (entry_loop _ _ _ _) as [e|entry];
      [intros [= <- <-]; constructor|].
    destruct (build_dn_rdn _ _ _ Hbuild) as (rdn & Hrdn & Hnew).
    destruct (rdn_pk_field self rdn Hwf Hrdn) as (f & Hf & Hpk).
    destruct (pk_wf (set_attr "dn" (VStr new_dn) self) f) as [key' Hkey'];
      [by apply wf_set_attr|done|done|].
    destruct (add_s connection (VStr new_dn) entry (st_dir st)) as [e|d1] eqn:Hadd.
    + intros [= <- <-]. by apply RunAddRaised.
    + cbn [st_self log_event with_self with_dir]. fold self.
      rewrite Hkey'. intros [= <- <-]. by apply RunCreated.
Qed.

(** [save] does not read the trace: from two states with the same
    instance and the same directory it runs the same way. *)
Lemma save_trace_independent using_ st1 st2 r st1' :
  st_self st2 = st_self st1 -> st_dir st2 = st_dir st1 ->
  save using_ st1 = (r, st1') ->
  exists st2',
    save using_ st2 = (r, st2')
    /\ st_self st2' = st_self st1' /\ st_dir st2' = st_dir st1'
    /\ forall evs, added st1 st1' evs -> added st2 st2' evs.
Proof.
  destruct st1 as [self dir t1], st2 as [self2 dir2 t2]. simpl.
  intros -> ->. rewrite !save_run. cbv zeta.
  rewrite !save_create_run, !save_update_run. cbv zeta.
  repeat match goal with
  | |- _ => progress cbn [st_self st_dir log_event with_self with_dir]
  | |- context [if ?b then _ else _] => destruct b
  | |- context [match ?x with inl _ => _ | inr _ => _ end] => destruct x
  end;
  intros [= <- <-]; (eexists; split; [reflexivity|]);
  unfold added, post_save_state; simpl; (split_and!; try done);
  intros evs Hevs; rewrite <- ?app_assoc in *;
  first [ apply app_inv_head in Hevs
        | rewrite <- (app_nil_r t1) in Hevs at 1; apply app_inv_head in Hevs ];
  subst evs; by rewrite ?app_nil_r.
Qed.

Lemma added_nil st st' evs ev :
  added st st' (evs ++ [ev]) -> st_trace st' = st_trace st -> False.
Proof.
  unfold added. intros -> H. rewrite <- (app_nil_r (st_trace st)) in H at 2.
  apply app_inv_head in H. by destruct evs.
Qed.

(** C7. An error the directory client raises during the add, the rename or
    the modify call is the error [save] raises: the run stops at that
    call, which was issued once, and no post-save signal is sent. A failed
    save alters no field value and not [saved_pk]; when the failing call is
    the add or the rename, [dn] and the whole instance are as before the
    call, so that a retry issues the same calls again. *)
Theorem save_failure_propagates (using_ : option Alias) (st : State)
    (r : Result unit) (st' : State) :
  wf_instance (st_self st) = true ->
  save using_ st = (r, st') ->
  SaveRun (connection_for using_ (st_self st)) st r st'
  /\ forall e, r = inl e ->
       (forall n, n <> "dn" ->
          getattr (st_self st') n = getattr (st_self st) n)
       /\ saved_pk (st_self st') = saved_pk (st_self st)
       /\ (forall evs s i c, added st st' evs -> ~ In (EvPostSave s i c) evs)
       /\ (forall evs ev,
             added st st' (evs ++ [ev]) ->
             match ev with EvAdd _ _ _ | EvRename _ _ _ => True | _ => False end ->
             st_self st' = st_self st /\ st_dir st' = st_dir st
             /\ exists st'',
                  save using_ st' = (inl e, st'')
                  /\ added st' st'' (evs ++ [ev])).
Proof.
  intros Hwf Hsave.
  pose proof (save_is_SaveRun using_ st r st' Hwf Hsave) as Hrun.
  split; [done|]. intros e ->.
  assert (Hretry : st_self st' = st_self st -> st_dir st' = st_dir st ->
            forall evs, added st st' evs ->
            exists st'', save using_ st' = (inl e, st'') /\ added st' st'' evs).
  { intros Hs Hd evs Hevs.
    destruct (save_trace_independent using_ st st' (inl e) st' Hs Hd Hsave)
      as (st'' & Hsave' & _ & _ & Hadd). eauto. }
  inversion Hrun; subst; clear Hrun;
    cbn [st_self st_dir log_event with_self with_dir] in *.
  - (* the add raised *)
    split_and!; [done|done|no_post_save|].
    intros evs ev Hevs _. split_and!; [done|done|by apply Hretry].
  - (* the rename raised *)
    split_and!; [done|done|no_post_save|].
    intros evs ev Hevs _. split_and!; [done|done|by apply Hretry].
  - (* the modify raised, no rename before it *)
    split_and!; [done|done|no_post_save|].
    intros evs ev Hevs Hev. exfalso.
    last_event Hevs. done.
  - (* the modify raised, after the rename *)
    split_and!; [|done|no_post_save|].
    { intros n Hn. by apply getattr_set_attr_ne. }
    intros evs ev Hevs Hev. exfalso.
    last_event Hevs. done.
  - (* another error, before any call *)
    split_and!; [done|done|no_post_save|].
    intros evs ev Hevs Hev. by destruct (added_nil _ _ _ _ Hevs).
  - (* another error, after the lookup *)
    split_and!; [done|done|no_post_save|].
    intros evs ev Hevs Hev. exfalso.
    last_event Hevs. done.
Qed.

(** ** Delete: claim C8 *)

Lemma delete_run using_ st :
  delete using_ st
  = let self := st_self st in
    let connection := connection_for using_ self in
    match getattr self "dn" with
    | inl e => (inl e, st)
    | inr dn =>
        let st1 := log_event (EvDelete connection dn) st in
        match delete_s connection dn (st_dir st) with
        | inl e => (inl e, st1)
        | inr d =>
            (inr tt, log_event (EvPostDelete (cls self) self) (with_dir d st1))
        end
    end.
Proof.
  unfold delete. unfold bind at 1. rewrite get_connection_run.
  unfold self_getattr, conn_delete_s, ldap_call, bind, get_self, lift, send.
  simpl. destruct (getattr (st_self st) "dn") as [e|dn]; [done|]. simpl.
  by destruct (delete_s _ _ _).
Qed.

(** C8. [delete] issues exactly one delete call, at the record's current
    [dn]; when the call returns, the post-delete signal is sent. The
    instance ([dn], [saved_pk] and every field value) is left as it
    was. *)
Theorem delete_issues_one_call (using_ : option Alias) (st : State)
    (dn : Value) :
  let self := st_self st in
  let connection := connection_for using_ self in
  let call := EvDelete connection dn in
  getattr self "dn" = inr dn ->
  match delete_s connection dn (st_dir st) with
  | inl e => delete using_ st = (inl e, log_event call st)
  | inr d =>
      exists st',
        delete using_ st = (inr tt, st')
        /\ st_dir st' = d
        /\ added st st' [call; EvPostDelete (cls self) self]
  end
  /\ forall r st', delete using_ st = (r, st') ->
       st_self st' = self
       /\ getattr (st_self st') "dn" = inr dn
       /\ saved_pk (st_self st') = saved_pk self
       /\ attrs (st_self st') = attrs self.
Proof.
  intros self connection call Hdn. rewrite delete_run. cbv zeta.
  fold self connection. rewrite Hdn. fold call.
  destruct (delete_s connection dn (st_dir st)) as [e|d].
  - split; [done|]. by intros r st' [= <- <-].
  - split.
    + eexists. split; [reflexivity|]. split; [done|].
      unfold added. simpl. by rewrite <- app_assoc.
    + by intros r st' [= <- <-].
Qed.

(** ** The scoped variant: claim C9 *)

Lemma build_rdn_loop_attrs i i' keys fs bits :
  attrs i' = attrs i ->
  build_rdn_loop (OnInstance i') keys fs bits
  = build_rdn_loop (OnInstance i) keys fs bits.
Proof.
  intros Hattrs. revert bits.
  induction fs as [|f fs IH]; intros bits; simpl; [done|].
  destruct (db_column f) as [[|a s]|]; [by apply IH| |by apply IH].
  destruct (keys !! name f); [by apply IH|].
  destruct (primary_key f); [|by apply IH].
  unfold getattr. rewrite Hattrs.
  destruct (attrs i !! name f); simpl; [by apply IH|done].
Qed.

Lemma build_rdn_loop_class_irrel c c' keys fs bits :
  build_rdn_loop (OnClass c') keys fs bits
  = build_rdn_loop (OnClass c) keys fs bits.
Proof.
  revert bits. induction fs as [|f fs IH]; intros bits; simpl; [done|].
  destruct (db_column f) as [[|a s]|]; [by apply IH| |by apply IH].
  destruct (keys !! name f); [by apply IH|].
  destruct (primary_key f); [done|by apply IH].
Qed.

(** C9. [scoped] returns a new class that is the base class with
    [base_dn] replaced (and its own name): its [build_dn], on the class and
    on its instances, is the base class's RDN followed by the new base DN.
    It changes no state, whatever the state holds (the directory, the
    trace, the base class itself): the base class and its [build_dn] are
    what they were, and no directory call is made. *)
Theorem scoped_replaces_base_dn (S : Type) (s : S) (base_class : Class)
    (new_base_dn : string) :
  exists new_class,
    scoped base_class new_base_dn s = (inr new_class, s)
    /\ base_dn new_class = VStr new_base_dn
    /\ fields new_class = fields base_class
    /\ bound_alias new_class = bound_alias base_class
    /\ search_scope new_class = search_scope base_class
    /\ object_classes new_class = object_classes base_class
    /\ cls_module new_class = cls_module base_class
    /\ (forall keys,
          build_dn (OnClass new_class) keys
          = let? rdn := build_rdn (OnClass base_class) keys in
            inr (rdn +:+ "," +:+ new_base_dn))
    /\ (forall keys a k,
          build_dn (OnInstance {| cls := new_class; attrs := a; saved_pk := k |})
            keys
          = let? rdn :=
              build_rdn
                (OnInstance {| cls := base_class; attrs := a; saved_pk := k |})
                keys in
            inr (rdn +:+ "," +:+ new_base_dn))
    /\ (forall keys,
          build_dn (OnClass (scoped base_class new_base_dn base_class).2) keys
          = build_dn (OnClass base_class) keys)
    /\ (forall st : State,
          (scoped base_class new_base_dn st).2 = st).
Proof.
  eexists. split; [reflexivity|]. simpl. split_and!; try done.
  - intros keys. unfold build_dn, build_rdn. simpl.
    by rewrite (build_rdn_loop_class_irrel base_class).
  - intros keys a k. unfold build_dn, build_rdn. simpl.
    by rewrite (build_rdn_loop_attrs
                  {| cls := base_class; attrs := a; saved_pk := k |}).
Qed.

End Properties.

(** ** The theorems at work on the demo model *)

Section Examples.

Import Demo.

(** The testable properties the specification lists, evaluated. *)

Example rdn_of_instance :
  build_rdn (OnInstance alice) ∅ = inr "uid=alice".
Proof. vm_compute. reflexivity. Qed.

Example rdn_of_class_with_override :
  build_rdn (OnClass Person) {["uid" := VStr "bob"]} = inr "uid=bob".
Proof. vm_compute. reflexivity. Qed.

Example rdn_of_class_without_override :
  build_rdn (OnClass Person) ∅ = inl all_keys_error.
Proof. vm_compute. reflexivity. Qed.

Example rdn_multi_valued :
  build_rdn (OnInstance alice) {["cn" := VStr "Alice"]}
  = inr "uid=alice+cn=Alice".
Proof. vm_compute. reflexivity. Qed.

Example rdn_of_integer : rdn_bit "uidNumber" (VInt 1000) = "uidNumber=1000".
Proof. vm_compute. reflexivity. Qed.

Example rdn_without_mapped_key :
  build_rdn (OnClass Unkeyed) ∅ = inl no_dn_error.
Proof. vm_compute. reflexivity. Qed.

Example dn_of_new_record :
  build_dn (OnInstance carol) ∅
  = inr "uid=carol,ou=people,dc=example,dc=com".
Proof. vm_compute. reflexivity. Qed.

Example dn_of_scoped_class :
  (let* staff := scoped Person "ou=staff,dc=example,dc=com" in
   lift (build_dn (OnClass staff) {["uid" := VStr "bob"]})) tt
  = (inr "uid=bob,ou=staff,dc=example,dc=com", tt).
Proof. vm_compute. reflexivity. Qed.

Example name_of_scoped_class :
  (let* staff := scoped Person "ou=staff,dc=example,dc=com" in
   ret (cls_name staff)) tt
  = (inr "Person_ou_staff_dc_example_dc_com", tt).
Proof. vm_compute. reflexivity. Qed.

(** Deleting the mail address queues a delete, not a replace with an
    empty value. *)
Example empty_to_absent :
  modlist_loop (B := with_alice) alice alice_edited "ldap" (fields Person) []
  = [(MOD_REPLACE, "cn", Some ["Alice B."]); (MOD_DELETE, "mail", None)].
Proof. vm_compute. reflexivity. Qed.

(** When the modify raises after the rename has returned, the instance
    keeps the new [dn] and the old [saved_pk]. *)
Example modify_raises_after_rename :
  outcome (save None (start (B := no_modify) alice_renamed 0%nat))
  = (inl (LDAPError "SERVER_DOWN"),
     [EvGet Person (VStr "alice");
      EvRename "ldap" alice_dn "uid=alicia";
      EvModify "ldap" (VStr "uid=alicia,ou=people,dc=example,dc=com")
        [(MOD_REPLACE, "uid", Some ["alicia"]);
         (MOD_REPLACE, "cn", Some ["Alice B."])]],
     1%nat,
     Some (VStr "uid=alicia,ou=people,dc=example,dc=com"),
     VStr "alice").
Proof. vm_compute. reflexivity. Qed.

(** A record whose primary key has no directory attribute cannot be
    created: [build_dn] raises before any call. *)
Example create_without_mapped_key :
  outcome (save None
             (start (B := with_alice)
                    {| cls := Unkeyed;
                       attrs := <["dn" := VStr ""]> (<["id" := VInt 1]>
                                (<["cn" := VStr "x"]> ∅));
                       saved_pk := VInt 1 |}
                    0%nat))
  = (inl no_dn_error, [], 0%nat, Some (VStr ""), VInt 1).
Proof. vm_compute. reflexivity. Qed.

(** The witnesses of the theorems. *)

Lemma build_rdn_emits_in_order_witness :
  wf_instance alice = true
  /\ build_rdn (OnInstance alice) ∅ = inr "uid=alice".
Proof.
  assert (Hwf : wf_instance alice = true) by (vm_compute; reflexivity).
  split; [exact Hwf|].
  rewrite (proj1 (build_rdn_emits_in_order (B := with_alice) alice ∅ Hwf)).
  vm_compute. reflexivity.
Defined.

Lemma build_rdn_fails_exactly_witness :
  let keys : gmap string Value := {["uid" := VStr "bob"]} in
  build_rdn (OnClass Person) keys = build_rdn (OnInstance alice) keys
  /\ build_rdn (OnClass Person) keys = inr "uid=bob".
Proof.
  intros keys.
  assert (Hwf : wf_self (OnClass Person) = true) by reflexivity.
  assert (Hcov : missing_keys (OnClass Person) keys = false)
    by (vm_compute; reflexivity).
  split.
  - exact (proj2 (proj2 (build_rdn_fails_exactly (OnClass Person) keys Hwf))
             Person alice eq_refl eq_refl Hcov).
  - vm_compute. reflexivity.
Defined.

Lemma save_queues_by_field_witness :
  let B := with_alice in
  let st := start alice_edited 0%nat in
  (* the common name changed to a non-empty value: a replace *)
  modlist_loop alice alice_edited "ldap" (fields Person) []
  = modlist_loop alice alice_edited "ldap" [dn_field; uid_field] []
    ++ [(MOD_REPLACE, "cn", Some ["Alice B."])]
    ++ modlist_loop alice alice_edited "ldap" [mail_field; note_field] []
  (* the mail address changed to nothing: a delete *)
  /\ modlist_loop alice alice_edited "ldap" (fields Person) []
     = modlist_loop alice alice_edited "ldap" [dn_field; uid_field; cn_field] []
       ++ [(MOD_DELETE, "mail", None)]
       ++ modlist_loop alice alice_edited "ldap" [note_field] []
  (* the primary key did not change: nothing *)
  /\ modlist_loop alice alice_edited "ldap" (fields Person) []
     = modlist_loop alice alice_edited "ldap" [dn_field] [] ++ []
       ++ modlist_loop alice alice_edited "ldap"
            [cn_field; mail_field; note_field] []
  (* the save hands the queue to [modify_s] *)
  /\ exists evs dn,
       added st (save None st).2 evs
       /\ In (EvModify "ldap" dn
                [(MOD_REPLACE, "cn", Some ["Alice B."]);
                 (MOD_DELETE, "mail", None)]) evs.
Proof.
  intros B st.
  assert (Hdn : getattr (st_self st) "dn" = inr alice_dn)
    by (vm_compute; reflexivity).
  assert (Htrue : truthy alice_dn = true) by reflexivity.
  assert (Horig : objects_get (cls (st_self st)) (saved_pk (st_self st))
                    (st_dir st) = inr alice) by reflexivity.
  split_and!.
  - apply (proj1 (save_queues_by_field None st alice_dn alice
                    [dn_field; uid_field] [mail_field; note_field] cn_field
                    "cn" Hdn Htrue Horig eq_refl eq_refl));
      vm_compute; [discriminate|reflexivity].
  - apply (proj1 (proj2 (save_queues_by_field None st alice_dn alice
                    [dn_field; uid_field; cn_field] [note_field] mail_field
                    "mail" Hdn Htrue Horig eq_refl eq_refl)));
      vm_compute; [discriminate|reflexivity|reflexivity].
  - apply (proj1 (proj2 (proj2 (save_queues_by_field None st alice_dn alice
                    [dn_field] [cn_field; mail_field; note_field] uid_field
                    "uid" Hdn Htrue Horig eq_refl eq_refl))));
      vm_compute; reflexivity.
  - assert (Hr : (save None st).1 = inr tt) by (vm_compute; reflexivity).
    assert (Hml : modlist_loop alice (st_self st)
                    (connection_for None (st_self st))
                    (fields (cls (st_self st))) []
                  = [(MOD_REPLACE, "cn", Some ["Alice B."]);
                     (MOD_DELETE, "mail", None)])
      by (vm_compute; reflexivity).
    destruct (proj2 (proj2 (proj2 (save_queues_by_field None st alice_dn alice
                [dn_field] [cn_field; mail_field; note_field] uid_field
                "uid" Hdn Htrue Horig eq_refl eq_refl)))
                (save None st).1 (save None st).2 (surjective_pairing _))
      as (evs & Hadded & _ & _ & Hsent).
    destruct (Hsent Hr) as [dn Hin].
    { rewrite Hml. discriminate. }
    rewrite Hml in Hin. exists evs, dn. split; [exact Hadded|exact Hin].
Defined.

Lemma save_renames_before_modify_witness :
  let B := with_alice in
  let st := start alice_renamed 0%nat in
  let modlist :=
    [(MOD_REPLACE, "uid", Some ["alicia"]);
     (MOD_REPLACE, "cn", Some ["Alice B."])] in
  exists key st',
    save None st = (inr tt, st')
    /\ st_self st'
       = set_saved_pk key
           (set_attr "dn" (VStr "uid=alicia,ou=people,dc=example,dc=com")
              alice_renamed)
    /\ st_dir st' = 2%nat
    /\ added st st'
         [EvGet Person (VStr "alice");
          EvRename "ldap" alice_dn "uid=alicia";
          EvModify "ldap" (VStr "uid=alicia,ou=people,dc=example,dc=com")
            modlist;
          EvPostSave Person (st_self st') false].
Proof.
  intros B st modlist.
  assert (Hwf : wf_instance (st_self st) = true) by (vm_compute; reflexivity).
  assert (Hdn : getattr (st_self st) "dn" = inr alice_dn)
    by (vm_compute; reflexivity).
  assert (Horig : objects_get (cls (st_self st)) (saved_pk (st_self st))
                    (st_dir st) = inr alice) by reflexivity.
  assert (Hdn' : build_dn (OnInstance (st_self st)) ∅
                 = inr "uid=alicia,ou=people,dc=example,dc=com")
    by (vm_compute; reflexivity).
  destruct (save_renames_before_modify None st alice_dn alice
              "uid=alicia,ou=people,dc=example,dc=com"
              Hwf Hdn eq_refl Horig) as (rdn & Hrdn & Hrun).
  - vm_compute. discriminate.
  - exact Hdn'.
  - vm_compute. discriminate.
  - assert (rdn = "uid=alicia") as ->.
    { assert (Hc : build_rdn (OnInstance (st_self st)) ∅ = inr "uid=alicia")
        by (vm_compute; reflexivity).
      rewrite Hc in Hrdn. by injection Hrdn as <-. }
    assert (Hml : modlist_loop alice (st_self st)
                    (connection_for None (st_self st))
                    (fields (cls (st_self st))) [] = modlist)
      by (vm_compute; reflexivity).
    cbv zeta in Hrun. rewrite Hml in Hrun. exact Hrun.
Defined.

Lemma save_creates_entry_witness :
  let B := with_alice in
  let st := start carol 0%nat in
  exists key st',
    save None st = (inr tt, st')
    /\ st_self st'
       = set_saved_pk key
           (set_attr "dn" (VStr "uid=carol,ou=people,dc=example,dc=com") carol)
    /\ getattr (st_self st') "dn"
       = inr (VStr "uid=carol,ou=people,dc=example,dc=com")
    /\ pk (st_self st') = inr key
    /\ st_dir st' = 1%nat
    /\ added st st'
         [EvAdd "ldap" (VStr "uid=carol,ou=people,dc=example,dc=com")
            [("objectClass", ["top"; "person"]); ("uid", ["carol"]);
             ("cn", ["Carol"])];
          EvPostSave Person (st_self st') true].
Proof.
  intros B st.
  assert (Hwf : wf_instance (st_self st) = true) by (vm_compute; reflexivity).
  assert (Hdn : getattr (st_self st) "dn" = inr (VStr ""))
    by (vm_compute; reflexivity).
  assert (Hdn' : build_dn (OnInstance (st_self st)) ∅
                 = inr "uid=carol,ou=people,dc=example,dc=com")
    by (vm_compute; reflexivity).
  pose proof (proj2 (save_creates_entry None st (VStr "")
                       "uid=carol,ou=people,dc=example,dc=com"
                       Hwf Hdn eq_refl Hdn')) as Hrun.
  assert (Hentry : spec_entry (st_self st) (connection_for None (st_self st))
                   = [("objectClass", ["top"; "person"]); ("uid", ["carol"]);
                      ("cn", ["Carol"])])
    by (vm_compute; reflexivity).
  rewrite Hentry in Hrun. exact Hrun.
Defined.

Lemma save_noop_and_identity_witness :
  let B := with_alice in
  let st := start alice 0%nat in
  exists st',
    save None st = (inr tt, st')
    /\ st_dir st' = 0%nat
    /\ (exists evs, added st st' evs /\ filter is_write evs = [])
    /\ pk (st_self st') = inr (saved_pk (st_self st'))
    /\ saved_pk (st_self st') = VStr "alice".
Proof.
  intros B st.
  assert (Hdn : getattr (st_self st) "dn" = inr alice_dn)
    by (vm_compute; reflexivity).
  assert (Horig : objects_get (cls (st_self st)) (saved_pk (st_self st))
                    (st_dir st) = inr alice) by reflexivity.
  assert (Hnil : modlist_loop alice (st_self st)
                   (connection_for None (st_self st))
                   (fields (cls (st_self st))) [] = [])
    by (vm_compute; reflexivity).
  assert (Hkey : pk (st_self st) = inr (VStr "alice"))
    by (vm_compute; reflexivity).
  destruct (save_noop_and_identity None st) as [Hnoop Hdone].
  destruct (Hnoop alice_dn alice Hdn eq_refl Horig Hnil) as [Hquiet Hsave].
  specialize (Hsave (VStr "alice") Hkey).
  eexists. split; [exact Hsave|].
  destruct (Hquiet _ _ Hsave) as [Hdir Hevs].
  destruct (Hdone _ Hsave) as [Hpk _].
  split_and!; [exact Hdir|exact Hevs|exact Hpk|reflexivity].
Defined.

Lemma save_drops_empty_to_empty_witness :
  let B := with_bob in
  let st := start bob_blank 0%nat in
  getattr_default bob "mail" <> getattr_default bob_blank "mail"
  /\ modlist_loop bob bob_blank "ldap" (fields Person) [] = []
  /\ forall r st', save None st = (r, st') ->
       st_dir st' = 0%nat
       /\ exists evs, added st st' evs /\ filter is_write evs = [].
Proof.
  intros B st.
  assert (Hdn : getattr (st_self st) "dn" = inr bob_dn)
    by (vm_compute; reflexivity).
  assert (Horig : objects_get (cls (st_self st)) (saved_pk (st_self st))
                    (st_dir st) = inr bob) by reflexivity.
  split; [vm_compute; discriminate|].
  apply (proj2 (save_drops_empty_to_empty None st bob_dn bob
                  Hdn eq_refl Horig)).
  intros f col Hin _. simpl in Hin.
  destruct Hin as [<-|[<-|[<-|[<-|[<-|[]]]]]]; vm_compute;
    first [ left; reflexivity | right; split; reflexivity ].
Defined.

Lemma save_failure_propagates_witness :
  let B := no_rename in
  let st := start alice_renamed 0%nat in
  let e := LDAPError "SERVER_DOWN" in
  let get := EvGet Person (VStr "alice") in
  let rename := EvRename "ldap" alice_dn "uid=alicia" in
  (save None st).1 = inl e
  /\ SaveRun "ldap" st (save None st).1 (save None st).2
  /\ st_self (save None st).2 = alice_renamed
  /\ (exists st'',
        save None (save None st).2 = (inl e, st'')
        /\ added (save None st).2 st'' ([get] ++ [rename])).
Proof.
  intros B st e get rename.
  assert (Hwf : wf_instance (st_self st) = true) by (vm_compute; reflexivity).
  assert (He : (save None st).1 = inl e) by (vm_compute; reflexivity).
  assert (Hevs : added st (save None st).2 ([get] ++ [rename]))
    by (vm_compute; reflexivity).
  destruct (save_failure_propagates None st (save None st).1 (save None st).2
              Hwf (surjective_pairing _)) as [Hrun Hfail].
  destruct (Hfail e He) as (_ & _ & _ & Hpre).
  destruct (Hpre [get] rename Hevs I) as (Hself & _ & Hretry).
  split_and!; [exact He|exact Hrun|exact Hself|exact Hretry].
Defined.

Lemma delete_issues_one_call_witness :
  let B := with_alice in
  let st := start alice 0%nat in
  (exists st',
     delete None st = (inr tt, st')
     /\ st_dir st' = 1%nat
     /\ added st st' [EvDelete "ldap" alice_dn; EvPostDelete Person alice])
  /\ forall r st', delete None st = (r, st') ->
       st_self st' = alice
       /\ getattr (st_self st') "dn" = inr alice_dn
       /\ saved_pk (st_self st') = VStr "alice"
       /\ attrs (st_self st') = attrs alice.
Proof.
  intros B st.
  assert (Hdn : getattr (st_self st) "dn" = inr alice_dn)
    by (vm_compute; reflexivity).
  exact (delete_issues_one_call None st alice_dn Hdn).
Defined.

End Examples.

(** * Further properties of the code *)

(** ** The RDN builder and its inputs *)

Lemma mapped_column_is_Some f :
  is_Some (mapped_column f) <->
  exists a s, db_column f = Some (String a s).
Proof.
  unfold mapped_column. destruct (db_column f) as [[|a s]|]; split.
  all: try (intros [x Hx]; discriminate Hx).
  all: try (intros (a' & s' & H); discriminate H).
  - eauto.
  - intros _. eauto.
Qed.

(** The loop reads the overrides only at the names of mapped fields. *)
Lemma build_rdn_loop_keys_agree self keys keys' fs bits :
  (forall f, In f fs -> is_Some (mapped_column f) ->
     keys !! name f = keys' !! name f) ->
  build_rdn_loop self keys fs bits = build_rdn_loop self keys' fs bits.
Proof.
  revert bits. induction fs as [|f fs IH]; intros bits Hagree; [done|].
  assert (IH' : forall bits,
    build_rdn_loop self keys fs bits = build_rdn_loop self keys' fs bits).
  { intros bits'. apply IH. intros g Hg. apply Hagree. by right. }
  simpl. destruct (db_column f) as [[|a s]|] eqn:Hcol; [done| |done].
  rewrite <- (Hagree f); [|by left|apply mapped_column_is_Some; eauto].
  destruct (keys !! name f); [done|].
  destruct (primary_key f); [|done].
  destruct self as [c|i]; [done|].
  destruct (getattr i (name f)); simpl; done.
Qed.

(** The loop reads the instance only at the names of the mapped
    primary-key fields the overrides do not cover. *)
Lemma build_rdn_loop_attrs_agree i i' keys fs bits :
  (forall f, In f fs -> is_Some (mapped_column f) ->
     primary_key f = true -> keys !! name f = None ->
     attrs i' !! name f = attrs i !! name f) ->
  build_rdn_loop (OnInstance i') keys fs bits
  = build_rdn_loop (OnInstance i) keys fs bits.
Proof.
  revert bits. induction fs as [|f fs IH]; intros bits Hagree; [done|].
  assert (IH' : forall bits,
    build_rdn_loop (OnInstance i') keys fs bits
    = build_rdn_loop (OnInstance i) keys fs bits).
  { intros bits'. apply IH. intros g Hg. apply Hagree. by right. }
  simpl. destruct (db_column f) as [[|a s]|] eqn:Hcol; [done| |done].
  destruct (keys !! name f) eqn:Hkey; [done|].
  destruct (primary_key f) eqn:Hpk; [|done].
  unfold getattr.
  rewrite (Hagree f); [|by left|apply mapped_column_is_Some; eauto|done|done].
  destruct (attrs i !! name f); simpl; done.
Qed.

(** X1. [build_rdn] and [build_dn] look at the overrides only under the
    names of the fields that have a directory attribute: two override maps
    that agree there give the same result, so an override that names an
    unmapped or undeclared field is ignored without an error. *)
Theorem build_rdn_ignores_other_keys (self : Self)
    (keys keys' : gmap string Value) :
  (forall f, In f (fields (self_class self)) -> is_Some (mapped_column f) ->
     keys !! name f = keys' !! name f) ->
  build_rdn self keys = build_rdn self keys'
  /\ build_dn self keys = build_dn self keys'.
Proof.
  intros Hagree.
  assert (Hrdn : build_rdn self keys = build_rdn self keys').
  { unfold build_rdn. by rewrite (build_rdn_loop_keys_agree self keys keys'). }
  split; [done|]. unfold build_dn. by rewrite Hrdn.
Qed.

(** X2. The address of an entry can be computed before the entry exists:
    called on the class with, as overrides, exactly the values an instance
    has for the mapped primary-key fields, [build_rdn] and [build_dn]
    return what they return on that instance without overrides. *)
Theorem build_dn_class_predicts_instance (i : Instance)
    (keys : gmap string Value) :
  wf_instance i = true ->
  (forall f, In f (fields (cls i)) -> is_Some (mapped_column f) ->
     keys !! name f = if primary_key f then attrs i !! name f else None) ->
  build_rdn (OnClass (cls i)) keys = build_rdn (OnInstance i) ∅
  /\ build_dn (OnClass (cls i)) keys = build_dn (OnInstance i) ∅.
Proof.
  intros Hwf Hkeys.
  assert (Hloop : forall fs bits,
    (forall f, In f fs -> In f (fields (cls i))) ->
    build_rdn_loop (OnClass (cls i)) keys fs bits
    = build_rdn_loop (OnInstance i) ∅ fs bits).
  { induction fs as [|f fs IH]; intros bits Hsub; [done|].
    assert (IH' : forall bits,
      build_rdn_loop (OnClass (cls i)) keys fs bits
      = build_rdn_loop (OnInstance i) ∅ fs bits).
    { intros bits'. apply IH. intros g Hg. apply Hsub. by right. }
    simpl. destruct (db_column f) as [[|a s]|] eqn:Hcol; [done| |done].
    rewrite lookup_empty.
    rewrite (Hkeys f); [|apply Hsub; by left|apply mapped_column_is_Some; eauto].
    destruct (primary_key f); [|done].
    apply andb_prop in Hwf as [_ Hfs]. rewrite forallb_forall in Hfs.
    assert (Hattr : has_attr i (name f) = true) by (apply Hfs, Hsub; by left).
    rewrite (getattr_has_attr _ _ Hattr). unfold getattr_default.
    apply bool_decide_eq_true in Hattr as [v Hv]. rewrite Hv. simpl. done. }
  assert (Hrdn : build_rdn (OnClass (cls i)) keys = build_rdn (OnInstance i) ∅).
  { unfold build_rdn. simpl. by rewrite Hloop. }
  split; [done|]. unfold build_dn. by rewrite Hrdn.
Qed.

(** Assigning an attribute that is not a mapped primary-key field the
    overrides leave uncovered does not change the RDN. *)
Lemma build_rdn_set_attr_other i n v keys :
  (forall f, In f (fields (cls i)) -> is_Some (mapped_column f) ->
     primary_key f = true -> keys !! name f = None -> name f <> n) ->
  build_rdn (OnInstance (set_attr n v i)) keys = build_rdn (OnInstance i) keys.
Proof.
  intros Hother. unfold build_rdn. simpl.
  rewrite (build_rdn_loop_attrs_agree i); [done|].
  intros f Hf Hcol Hpk Hkey. simpl.
  rewrite lookup_insert_ne; [done|]. intros ->. by eapply Hother.
Qed.

(** X3. Assigning a declared field leaves the RDN and the DN of the
    instance as they were, unless the field is a mapped primary-key field
    that no override covers. (The field is a declared one, and not named
    like an attribute of the class: assigning [base_dn] on the instance
    would change the DN.) *)
Theorem build_dn_unchanged_by_other_attributes (i : Instance) (n : string)
    (v : Value) (keys : gmap string Value) :
  In n (map name (fields (cls i))) ->
  ~ In n class_attributes ->
  (forall f, In f (fields (cls i)) -> is_Some (mapped_column f) ->
     primary_key f = true -> keys !! name f = None -> name f <> n) ->
  build_rdn (OnInstance (set_attr n v i)) keys = build_rdn (OnInstance i) keys
  /\ build_dn (OnInstance (set_attr n v i)) keys = build_dn (OnInstance i) keys.
Proof.
  intros _ _ Hother.
  pose proof (build_rdn_set_attr_other i n v keys Hother) as Hrdn.
  split; [done|]. unfold build_dn. by rewrite Hrdn.
Qed.

Section MoreProperties.

Context {B : Backend}.

(** ** What [save] sends *)

(** X4. Every entry of the modification list of an update is, for some
    mapped field whose value changed, either a [MOD_REPLACE] of its
    attribute with the encoding of a non-empty new value, or a [MOD_DELETE]
    of its attribute with no value (the new value being empty and the old
    one not). No other shape is ever queued, and no field is queued
    twice: the list is no longer than the list of fields. *)
Theorem modlist_entries (orig self : Instance) (connection : Alias)
    (fs : list Field) :
  let modlist := modlist_loop orig self connection fs [] in
  (forall m, In m modlist ->
     exists f col,
       In f fs /\ mapped_column f = Some col
       /\ getattr_default orig (name f) <> getattr_default self (name f)
       /\ ((truthy (getattr_default self (name f)) = true
            /\ m = (MOD_REPLACE, col,
                    Some (get_db_prep_save f (getattr_default self (name f))
                            connection)))
           \/ (truthy (getattr_default self (name f)) = false
               /\ truthy (getattr_default orig (name f)) = true
               /\ m = (MOD_DELETE, col, None))))
  /\ length modlist <= length fs.
Proof.
  induction fs as [|f fs [IHin IHlen]]; [split; [intros m []|done]|].
  cbv zeta. change (f :: fs) with ([f] ++ fs).
  rewrite modlist_loop_app, modlist_loop_acc.
  assert (Hf : (forall m, In m (modlist_loop orig self connection [f] []) ->
                  exists col, mapped_column f = Some col
                  /\ getattr_default orig (name f) <> getattr_default self (name f)
                  /\ ((truthy (getattr_default self (name f)) = true
                       /\ m = (MOD_REPLACE, col,
                               Some (get_db_prep_save f
                                       (getattr_default self (name f))
                                       connection)))
                      \/ (truthy (getattr_default self (name f)) = false
                          /\ truthy (getattr_default orig (name f)) = true
                          /\ m = (MOD_DELETE, col, None))))
               /\ length (modlist_loop orig self connection [f] []) <= 1).
  { destruct (mapped_column f) as [col|] eqn:Hcol.
    - rewrite (modlist_loop_field _ _ _ _ _ Hcol). cbv zeta.
      unfold py_ne, py_eq. case_bool_decide as Hne; simpl; [split; [intros m []|lia]|].
      destruct (truthy (getattr_default self (name f))) eqn:Hnew.
      + split; [|simpl; lia]. intros m [<-|[]]. exists col. naive_solver.
      + destruct (truthy (getattr_default orig (name f))) eqn:Hold;
          [|split; [intros m []|simpl; lia]].
        split; [|simpl; lia]. intros m [<-|[]]. exists col. naive_solver.
    - rewrite (modlist_loop_unmapped _ _ _ _ Hcol). split; [intros m []|simpl; lia]. }
  destruct Hf as [Hfin Hflen]. split.
  - intros m [Hm|Hm]%in_app_or.
    + destruct (Hfin m Hm) as (col & Hcol & Hrest).
      exists f, col. split; [by left|done].
    + destruct (IHin m Hm) as (g & col & Hg & Hrest).
      exists g, col. split; [by right|done].
  - rewrite !length_app. change (length [f]) with 1. cbv zeta in IHlen. lia.
Qed.

(** The attribute list of the create loop, and the one way the loop of
    the embedding raises. *)
Lemma entry_loop_cases (self : Instance) (connection : Alias)
    (fs : list Field) (acc : Entry) :
  match entry_loop self connection fs acc with
  | inr entry =>
      exists rest,
        entry = acc ++ rest
        /\ forall a w, In (a, w) rest ->
             exists f v,
               In f fs /\ mapped_column f = Some a
               /\ getattr self (name f) = inr v /\ truthy v = true
               /\ w = get_db_prep_save f v connection
  | inl e =>
      exists f,
        In f fs /\ is_Some (mapped_column f)
        /\ attrs self !! name f = None /\ e = AttributeError (name f)
  end.
Proof.
  revert acc. induction fs as [|f fs IH]; intros acc; simpl.
  { exists []. split; [by rewrite app_nil_r|]. intros a w []. }
  assert (Hskip : forall acc',
    acc' = acc ->
    match entry_loop self connection fs acc' with
    | inr entry =>
        exists rest,
          entry = acc ++ rest
          /\ forall a w, In (a, w) rest ->
               exists g v,
                 In g (f :: fs) /\ mapped_column g = Some a
                 /\ getattr self (name g) = inr v /\ truthy v = true
                 /\ w = get_db_prep_save g v connection
    | inl e =>
        exists g,
          In g (f :: fs) /\ is_Some (mapped_column g)
          /\ attrs self !! name g = None /\ e = AttributeError (name g)
    end).
  { intros acc' ->. specialize (IH acc).
    destruct (entry_loop self connection fs acc) as [e|entry].
    - destruct IH as (g & Hg & Hrest). exists g. split; [by right|done].
    - destruct IH as (rest & Hentry & Hin). exists rest. split; [done|].
      intros a w Haw. destruct (Hin a w Haw) as (g & v & Hg & Hrest).
      exists g, v. split; [by right|done]. }
  destruct (db_column f) as [[|c s]|] eqn:Hcol; [by apply Hskip| |by apply Hskip].
  assert (Hmapped : mapped_column f = Some (String c s))
    by (unfold mapped_column; by rewrite Hcol).
  unfold getattr at 1. destruct (attrs self !! name f) as [v|] eqn:Hv; simpl.
  - destruct (truthy v) eqn:Htruthy; [|by apply Hskip].
    specialize (IH (acc ++ [(String c s, get_db_prep_save f v connection)])).
    destruct (entry_loop self connection fs _) as [e|entry].
    + destruct IH as (g & Hg & Hrest). exists g. split; [by right|done].
    + destruct IH as (rest & Hentry & Hin).
      exists ((String c s, get_db_prep_save f v connection) :: rest).
      split; [by rewrite Hentry, <- app_assoc|].
      intros a w [[= <- <-]|Haw].
      * exists f, v. unfold getattr. rewrite Hv. split_and!; try done. by left.
      * destruct (Hin a w Haw) as (g & v' & Hg & Hrest).
        exists g, v'. split; [by right|done].
  - exists f. split_and!; try done; first [by left|by rewrite Hmapped].
Qed.

(** X5. Whenever the loop of the create path returns, the attribute list
    holds, after what it started with ([objectClass]), only attributes of
    mapped fields whose current value is non-empty, each with the encoding
    of that value: an empty value ([None], the empty string, zero) is
    never sent. *)
Theorem entry_loop_entries (self : Instance) (connection : Alias)
    (fs : list Field) (acc entry : Entry) :
  entry_loop self connection fs acc = inr entry ->
  exists rest,
    entry = acc ++ rest
    /\ forall a w, In (a, w) rest ->
         exists f v,
           In f fs /\ mapped_column f = Some a
           /\ getattr self (name f) = inr v /\ truthy v = true
           /\ w = get_db_prep_save f v connection.
Proof.
  intros Hloop. pose proof (entry_loop_cases self connection fs acc) as H.
  by rewrite Hloop in H.
Qed.

(** ** The update path beyond the rename *)

(** X6. An update whose queue is not empty and whose recomputed DN is the
    current [dn] issues no rename: after the lookup it calls [modify_s] at
    the current [dn] with the queue; if the call raises, the error
    propagates and nothing else happens; if it returns, [saved_pk] is
    refreshed and the post-save signal is sent with [created = False]. *)
Theorem save_modifies_in_place (using_ : option Alias) (st : State)
    (orig : Instance) (new_dn : string) :
  let self := st_self st in
  let connection := connection_for using_ self in
  let modlist := modlist_loop orig self connection (fields (cls self)) [] in
  let get := EvGet (cls self) (saved_pk self) in
  let modify := EvModify connection (VStr new_dn) modlist in
  wf_instance self = true ->
  getattr self "dn" = inr (VStr new_dn) -> new_dn <> "" ->
  objects_get (cls self) (saved_pk self) (st_dir st) = inr orig ->
  modlist <> [] ->
  build_dn (OnInstance self) ∅ = inr new_dn ->
  match modify_s connection (VStr new_dn) modlist (st_dir st) with
  | inl e => save using_ st = (inl e, log_event modify (log_event get st))
  | inr d2 =>
      exists key,
        pk self = inr key
        /\ save using_ st
           = (inr tt,
              post_save_state false key
                (with_dir d2 (log_event modify (log_event get st))))
  end.
Proof.
  intros self connection modlist get modify Hwf Hdn Hne Horig Hml Hbuild.
  destruct (build_dn_rdn _ _ _ Hbuild) as (rdn & Hrdn & Hnew).
  destruct (rdn_pk_field self rdn Hwf Hrdn) as (f & Hf & Hpk).
  destruct (pk_wf self f Hwf Hf Hpk) as [key Hkey].
  assert (Htrue : truthy (VStr new_dn) = true).
  { simpl. destruct new_dn; [done|reflexivity]. }
  rewrite save_run. cbv zeta. fold self connection. rewrite Hdn, Htrue. simpl.
  rewrite save_update_run. cbv zeta. fold self. rewrite Horig. fold modlist.
  destruct modlist as [|m ml] eqn:Hmodlist; [done|]. simpl.
  rewrite Hbuild, Hdn, (py_ne_false _ _ eq_refl).
  fold get. fold modify.
  destruct (modify_s connection (VStr new_dn) (m :: ml) (st_dir st)) as [e|d2];
    [done|].
  simpl. fold self. rewrite Hkey. by exists key.
Qed.

(** X7. When the lookup of the update path raises (the entry is gone, or
    [saved_pk] no longer names it), the error propagates: after the lookup
    nothing is called, and the instance and the directory are as they
    were. *)
Theorem save_lookup_raises (using_ : option Alias) (st : State) (d : Value)
    (e : Exn) :
  let self := st_self st in
  getattr self "dn" = inr d -> truthy d = true ->
  objects_get (cls self) (saved_pk self) (st_dir st) = inl e ->
  save using_ st
  = (inl e, log_event (EvGet (cls self) (saved_pk self)) st).
Proof.
  intros self Hdn Htrue Hget.
  rewrite save_run. cbv zeta. fold self. rewrite Hdn, Htrue. simpl.
  rewrite save_update_run. cbv zeta. fold self. by rewrite Hget.
Qed.

(** ** What [save] and [delete] leave alone *)


(** X9. [save] never deletes and [delete] never writes anything else: no
    run of [save] adds a delete call or a post-delete signal to the trace,
    and every run of [delete] adds at most the one delete call and the
    post-delete signal. *)
Theorem save_and_delete_keep_apart (using_ : option Alias) (st : State) :
  (forall r st', save using_ st = (r, st') ->
     exists evs,
       added st st' evs
       /\ forall ev, In ev evs ->
            match ev with
            | EvDelete _ _ | EvPostDelete _ _ => False
            | _ => True
            end)
  /\ (forall r st', delete using_ st = (r, st') ->
        exists evs,
          added st st' evs
          /\ forall ev, In ev evs ->
               match ev with
               | EvDelete _ _ | EvPostDelete _ _ => True
               | _ => False
               end).
Proof.
  split; intros r st'.
  - rewrite save_run. cbv zeta. rewrite save_create_run, save_update_run.
    cbv zeta. unfold added, post_save_state.
    run_cases; intros [= <- <-]; simpl; rewrite <- ?app_assoc;
      (eexists; split; [first [reflexivity | symmetry; apply app_nil_r]|]);
      intros ev Hev; simpl in Hev; intuition (subst; done).
  - rewrite delete_run. cbv zeta. unfold added.
    run_cases; intros [= <- <-]; simpl; rewrite <- ?app_assoc;
      (eexists; split; [first [reflexivity | symmetry; apply app_nil_r]|]);
      intros ev Hev; simpl in Hev; intuition (subst; done).
Qed.

(** ** One operation after another *)

(** A save on an instance whose [dn] is not empty starts with the lookup
    by [saved_pk] and never adds an entry. *)
Lemma save_update_starts_with_get using_ st d r st' :
  getattr (st_self st) "dn" = inr d -> truthy d = true ->
  save using_ st = (r, st') ->
  exists evs,
    added st st' (EvGet (cls (st_self st)) (saved_pk (st_self st)) :: evs)
    /\ forall c dn entry, ~ In (EvAdd c dn entry) evs.
Proof.
  intros Hdn Htrue. rewrite save_run. cbv zeta. rewrite Hdn, Htrue. simpl.
  rewrite save_update_run. cbv zeta. unfold added, post_save_state.
  run_cases; intros [= <- <-]; simpl; rewrite <- ?app_assoc;
    (eexists; split; [reflexivity|]);
    intros c dn entry Hin; simpl in Hin; intuition discriminate.
Qed.

Lemma truthy_dn rdn base : truthy (VStr (rdn +:+ "," +:+ base)) = true.
Proof. simpl. by destruct rdn. Qed.

(** After a save that returned, [dn] is not empty and [saved_pk] is the
    primary key. *)
Lemma save_returned using_ st st' :
  save using_ st = (inr tt, st') ->
  pk (st_self st') = inr (saved_pk (st_self st'))
  /\ exists d, getattr (st_self st') "dn" = inr d /\ truthy d = true.
Proof.
  rewrite save_run. cbv zeta.
  destruct (getattr (st_self st) "dn") as [e|d] eqn:Hdn; [done|].
  destruct (truthy d) eqn:Htrue; simpl.
  - rewrite save_update_run. cbv zeta. rewrite ?Hdn.
    run_cases; intros [= <-]; simpl; (split; [done|]).
    all: try (exists d; by split).
    all: eexists; split; [apply getattr_set_attr|].
    all: match goal with
         | H : build_dn _ _ = inr _ |- _ =>
             apply build_dn_rdn in H as (rdn & _ & ->); apply truthy_dn
         end.
  - rewrite save_create_run. cbv zeta.
    run_cases; intros [= <-]; simpl; (split; [done|]).
    all: eexists; split; [apply getattr_set_attr|].
    all: match goal with
         | H : build_dn _ _ = inr _ |- _ =>
             apply build_dn_rdn in H as (rdn & _ & ->); apply truthy_dn
         end.
Qed.

(** X10. A record is created once: after a save that returned, [dn] is not
    empty, so the next save (whatever happened to the fields in between,
    [dn] apart) is an update. It starts with the lookup by the primary key
    the instance had when the first save returned, and it never issues an
    add. *)
Theorem save_twice_never_adds_twice (using_ using_' : option Alias)
    (st st1 st1' : State) (r : Result unit) (st2 : State) :
  save using_ st = (inr tt, st1) ->
  attrs (st_self st1') !! "dn" = attrs (st_self st1) !! "dn" ->
  cls (st_self st1') = cls (st_self st1) ->
  saved_pk (st_self st1') = saved_pk (st_self st1) ->
  save using_' st1' = (r, st2) ->
  exists key evs,
    pk (st_self st1) = inr key
    /\ added st1' st2 (EvGet (cls (st_self st1)) key :: evs)
    /\ forall c dn entry, ~ In (EvAdd c dn entry) evs.
Proof.
  intros Hfirst Hdn Hcls Hsaved Hsecond.
  destruct (save_returned _ _ _ Hfirst) as (Hpk & d & Hd & Htrue).
  assert (Hd' : getattr (st_self st1') "dn" = inr d).
  { unfold getattr in *. by rewrite Hdn. }
  destruct (save_update_starts_with_get _ _ _ _ _ Hd' Htrue Hsecond)
    as (evs & Hadded & Hnoadd).
  exists (saved_pk (st_self st1)), evs. split; [done|].
  by rewrite <- Hcls, <- Hsaved.
Qed.

(** X11. [delete] leaves a stale handle: after a delete that returned, on a
    record that had a [dn], a save does not create the entry again. It
    takes the update path, starting with the lookup by [saved_pk], and
    issues no add. *)
Theorem save_after_delete_is_an_update (using_ using_' : option Alias)
    (st st1 : State) (d : Value) (r : Result unit) (st2 : State) :
  getattr (st_self st) "dn" = inr d -> truthy d = true ->
  delete using_ st = (inr tt, st1) ->
  save using_' st1 = (r, st2) ->
  exists evs,
    added st1 st2 (EvGet (cls (st_self st)) (saved_pk (st_self st)) :: evs)
    /\ forall c dn entry, ~ In (EvAdd c dn entry) evs.
Proof.
  intros Hdn Htrue Hdel Hsave.
  assert (Hself : st_self st1 = st_self st).
  { revert Hdel. rewrite delete_run. cbv zeta. rewrite Hdn.
    destruct (delete_s _ _ _); [done|]. by intros [= <-]. }
  rewrite <- Hself in Hdn |- *.
  by apply (save_update_starts_with_get using_' st1 d r st2).
Qed.

(** X12. The lookup of an update uses the primary key the instance was
    constructed with, not the current one: after [Model.__init__] and an
    assignment to the primary-key field, [save] looks the entry up under
    the old key (this is what lets a changed key become a rename). *)
Theorem save_looks_up_constructed_pk (using_ : option Alias) (c : Class)
    (a : gmap string Value) (i : Instance) (f : Field) (d v : Value)
    (st : State) (r : Result unit) (st' : State) :
  Model_init c a = inr i ->
  meta_pk c = Some f -> name f <> "dn" ->
  a !! "dn" = Some d -> truthy d = true ->
  st_self st = set_attr (name f) v i ->
  save using_ st = (r, st') ->
  exists key evs,
    a !! name f = Some key
    /\ added st st' (EvGet c key :: evs)
    /\ forall c' dn entry, ~ In (EvAdd c' dn entry) evs.
Proof.
  intros Hinit Hmeta Hname Hd Htrue Hself Hsave.
  unfold Model_init, pk, getattr in Hinit. simpl in Hinit.
  rewrite Hmeta in Hinit.
  destruct (a !! name f) as [key|] eqn:Hkey; [|done].
  simpl in Hinit. injection Hinit as <-.
  assert (Hdn : getattr (st_self st) "dn" = inr d).
  { rewrite Hself. unfold getattr. simpl.
    rewrite lookup_insert_ne by done. by rewrite Hd. }
  destruct (save_update_starts_with_get _ _ _ _ _ Hdn Htrue Hsave)
    as (evs & Hadded & Hnoadd).
  exists key, evs. split; [done|]. rewrite Hself in Hadded. by split.
Qed.

(** X13. Editing fields that are not mapped primary-key fields never
    renames: if an instance whose [dn] is its computed DN is changed
    anywhere but at [dn] and at the mapped primary-key fields, no run of
    [save] issues a rename. (Neither instance has an attribute that shadows
    one of the class: a [base_dn] assigned on the instance would change the
    computed DN.) *)
Theorem save_without_key_change_never_renames (using_ : option Alias)
    (i : Instance) (s : string) (st : State) (r : Result unit) (st' : State) :
  (forall n, In n class_attributes -> attrs i !! n = None) ->
  (forall n, In n class_attributes -> attrs (st_self st) !! n = None) ->
  getattr i "dn" = inr (VStr s) ->
  build_dn (OnInstance i) ∅ = inr s ->
  cls (st_self st) = cls i ->
  attrs (st_self st) !! "dn" = attrs i !! "dn" ->
  (forall f, In f (fields (cls i)) -> is_Some (mapped_column f) ->
     primary_key f = true ->
     attrs (st_self st) !! name f = attrs i !! name f) ->
  save using_ st = (r, st') ->
  exists evs,
    added st st' evs /\ forall c dn rdn, ~ In (EvRename c dn rdn) evs.
Proof.
  intros _ _ Hdn Hbuild Hcls Hsame_dn Hsame_pk.
  assert (Hdn' : getattr (st_self st) "dn" = inr (VStr s)).
  { unfold getattr in *. by rewrite Hsame_dn. }
  assert (Hbuild' : build_dn (OnInstance (st_self st)) ∅ = inr s).
  { rewrite <- Hbuild. unfold build_dn, build_rdn. simpl. rewrite Hcls.
    rewrite (build_rdn_loop_attrs_agree i (st_self st)); [done|].
    intros f Hf Hcol Hpk _. by apply Hsame_pk. }
  rewrite save_run. cbv zeta. rewrite Hdn'.
  rewrite save_create_run, save_update_run. cbv zeta.
  rewrite Hbuild', Hdn', (py_ne_false _ _ eq_refl).
  unfold added, post_save_state.
  run_cases; intros [= <- <-]; simpl; rewrite <- ?app_assoc;
    (eexists; split; [first [reflexivity | symmetry; apply app_nil_r]|]);
    intros c dn rdn Hin; simpl in Hin; intuition discriminate.
Qed.

(** ** The connection of every call *)





End MoreProperties.

(** ** [bind_as] and the connection settings *)

Lemma bind_as_class router base_class alias dn password kwargs DATABASES
    new_class DATABASES' :
  bind_as router base_class alias dn password kwargs DATABASES
  = (inr new_class, DATABASES') ->
  new_class = bound_class base_class alias.
Proof.
  unfold bind_as.
  destruct (DATABASES !! alias) as [cfg|];
    [|destruct (DATABASES !! router base_class) as [cfg|]; [|done]].
  all: destruct dn; try destruct (build_dn _ _); try done.
  all: by intros [= <- _].
Qed.

(** X16. When [bind_as] returns, the settings of every other alias are as
    they were (the base connection's among them: the new one is a copy),
    and the settings under [alias] are the ones that were there, or else
    the base connection's, with [USER] set to the given [dn], or to
    [build_dn] of the class with the keyword arguments when none is given, and [PASSWORD]
    set to the password, or to the empty string when none is given. Every
    other key of that configuration is kept. *)
Theorem bind_as_registers (router : Class -> Alias) (base_class : Class)
    (alias : Alias) (dn password : Value) (kwargs : gmap string Value)
    (DATABASES DATABASES' : Databases) (new_class : Class) :
  bind_as router base_class alias dn password kwargs DATABASES
  = (inr new_class, DATABASES') ->
  (forall a, a <> alias -> DATABASES' !! a = DATABASES !! a)
  /\ exists old_db new_db user,
       (DATABASES !! alias = Some old_db
        \/ (DATABASES !! alias = None
            /\ DATABASES !! router base_class = Some old_db))
       /\ (dn <> VNone /\ user = dn
           \/ dn = VNone
              /\ exists s, build_dn (OnClass base_class) kwargs = inr s
                           /\ user = VStr s)
       /\ DATABASES' !! alias = Some new_db
       /\ new_db !! "USER" = Some user
       /\ new_db !! "PASSWORD"
          = Some (if truthy password then password else VStr "")
       /\ forall k, k <> "USER" -> k <> "PASSWORD" ->
            new_db !! k = old_db !! k.
Proof.
  unfold bind_as.
  assert (Hdb : forall (old_db : gmap string Value) user,
    let new_db := <["PASSWORD" := password_or_empty password]>
                    (<["USER" := user]> old_db) in
    new_db !! "USER" = Some user
    /\ new_db !! "PASSWORD" = Some (if truthy password then password else VStr "")
    /\ forall k, k <> "USER" -> k <> "PASSWORD" -> new_db !! k = old_db !! k).
  { intros old_db user new_db. unfold new_db. split_and!.
    - rewrite lookup_insert_ne by done. apply lookup_insert_eq.
    - apply lookup_insert_eq.
    - intros k Hu Hp. by rewrite !lookup_insert_ne. }
  assert (Huser : forall user,
    match dn with
    | VNone =>
        match build_dn (OnClass base_class) kwargs with
        | inl e => inl e
        | inr s => inr (VStr s)
        end
    | _ => inr dn
    end = inr user ->
    dn <> VNone /\ user = dn
    \/ dn = VNone
       /\ exists s, build_dn (OnClass base_class) kwargs = inr s
                    /\ user = VStr s).
  { intros user. destruct dn; [|intros [= <-]; by left..].
    destruct (build_dn _ _) as [e|s]; [done|]. intros [= <-]. right. eauto. }
  destruct (DATABASES !! alias) as [old_db|] eqn:Hold.
  - destruct (match dn with VNone => _ | _ => _ end) as [e|user] eqn:Hdn;
      [done|].
    intros [= _ <-]. split.
    + intros a Ha. by rewrite lookup_insert_ne.
    + eexists old_db, _, user. split; [by left|]. split; [by apply Huser|].
      split; [apply lookup_insert_eq|]. apply Hdb.
  - destruct (DATABASES !! router base_class) as [old_db|] eqn:Hbase; [|done].
    destruct (match dn with VNone => _ | _ => _ end) as [e|user] eqn:Hdn;
      [done|].
    intros [= _ <-]. split.
    + intros a Ha. by rewrite !lookup_insert_ne.
    + eexists old_db, _, user. split; [by right|]. split; [by apply Huser|].
      split; [apply lookup_insert_eq|]. apply Hdb.
Qed.

(** X17. [bind_as] raises in two ways only. It raises [KeyError] when the
    alias is new and the router's alias for the class has no settings;
    the settings are then unchanged. It raises what [build_dn] raises, an
    identity error, when no [dn] is given and the overrides do not yield
    one; the settings are unchanged if the alias existed, but if the alias
    was new the copy of the base connection's settings has already been
    registered under it, and stays. *)
Theorem bind_as_raises (router : Class -> Alias) (base_class : Class)
    (alias : Alias) (dn password : Value) (kwargs : gmap string Value)
    (DATABASES DATABASES' : Databases) (e : BindExn) :
  bind_as router base_class alias dn password kwargs DATABASES
  = (inl e, DATABASES') ->
  (e = KeyError (router base_class)
   /\ DATABASES !! alias = None
   /\ DATABASES !! router base_class = None
   /\ DATABASES' = DATABASES)
  \/ (exists e0,
        e = Raised e0 /\ dn = VNone
        /\ build_dn (OnClass base_class) kwargs = inl e0
        /\ is_IdentityError e0 = true
        /\ (is_Some (DATABASES !! alias) /\ DATABASES' = DATABASES
            \/ exists base_db,
                 DATABASES !! alias = None
                 /\ DATABASES !! router base_class = Some base_db
                 /\ DATABASES' = <[alias := base_db]> DATABASES)).
Proof.
  unfold bind_as.
  assert (Hid : forall e0,
    build_dn (OnClass base_class) kwargs = inl e0 -> is_IdentityError e0 = true).
  { intros e0. unfold build_dn.
    rewrite (build_rdn_cases (OnClass base_class)) by done.
    destruct (missing_keys _ _); [by intros [= <-]|].
    destruct (spec_rdn_bits _ _ _); [by intros [= <-]|done]. }
  destruct (DATABASES !! alias) as [old_db|] eqn:Hold.
  - destruct dn; [|done..].
    destruct (build_dn _ _) as [e0|s] eqn:Hbuild; [|done].
    intros [= <- <-]. right. exists e0. split_and!; try done; [by apply Hid|].
    left. eauto.
  - destruct (DATABASES !! router base_class) as [base_db|] eqn:Hbase.
    + destruct dn; [|done..].
      destruct (build_dn _ _) as [e0|s] eqn:Hbuild; [|done].
      intros [= <- <-]. right. exists e0. split_and!; try done; [by apply Hid|].
      right. eauto.
    + intros [= <- <-]. by left.
Qed.

(** X18. [bind_as] can be repeated: called again with the same arguments on
    the settings it left, it returns the same class and leaves the
    settings as they are. *)
Theorem bind_as_twice (router : Class -> Alias) (base_class : Class)
    (alias : Alias) (dn password : Value) (kwargs : gmap string Value)
    (DATABASES DATABASES' : Databases) (new_class : Class) :
  bind_as router base_class alias dn password kwargs DATABASES
  = (inr new_class, DATABASES') ->
  bind_as router base_class alias dn password kwargs DATABASES'
  = (inr new_class, DATABASES').
Proof.
  intros Hfirst. pose proof (bind_as_class _ _ _ _ _ _ _ _ _ Hfirst) as ->.
  revert Hfirst. unfold bind_as.
  assert (Hagain : forall (D : Databases) (old_db : gmap string Value) user,
    let new_db := <["PASSWORD" := password_or_empty password]>
                    (<["USER" := user]> old_db) in
    <[alias := <["PASSWORD" := password_or_empty password]>
                 (<["USER" := user]> new_db)]> (<[alias := new_db]> D)
    = <[alias := new_db]> D).
  { intros D old_db user new_db. rewrite insert_insert_eq. f_equal.
    unfold new_db.
    rewrite (insert_insert_ne _ "USER" "PASSWORD") by done.
    by rewrite !insert_insert_eq. }
  destruct (DATABASES !! alias) as [old_db|] eqn:Hold;
    [|destruct (DATABASES !! router base_class) as [old_db|]; [|done]].
  all: destruct (match dn with VNone => _ | _ => _ end) as [e|user]; [done|].
  all: intros [= <-]; rewrite lookup_insert_eq; f_equal; apply Hagain.
Qed.

(** X19. The class [bind_as] returns addresses entries as the base class
    does: on the class and on its instances, with any overrides,
    [build_rdn] and [build_dn] return what they return for the base
    class. *)
Theorem bound_class_same_dn (router : Class -> Alias) (base_class : Class)
    (alias : Alias) (dn password : Value) (kwargs : gmap string Value)
    (DATABASES DATABASES' : Databases) (new_class : Class) :
  bind_as router base_class alias dn password kwargs DATABASES
  = (inr new_class, DATABASES') ->
  forall keys,
    build_rdn (OnClass new_class) keys = build_rdn (OnClass base_class) keys
    /\ build_dn (OnClass new_class) keys = build_dn (OnClass base_class) keys
    /\ forall a k,
         build_dn (OnInstance {| cls := new_class; attrs := a; saved_pk := k |})
           keys
         = build_dn
             (OnInstance {| cls := base_class; attrs := a; saved_pk := k |})
             keys.
Proof.
  intros ->%bind_as_class keys.
  assert (Hrdn : build_rdn (OnClass (bound_class base_class alias)) keys
                 = build_rdn (OnClass base_class) keys).
  { unfold build_rdn. simpl.
    by rewrite (build_rdn_loop_class_irrel base_class). }
  split_and!; [done|unfold build_dn; by rewrite Hrdn|].
  intros a k. unfold build_dn, build_rdn. simpl.
  by rewrite (build_rdn_loop_attrs
                {| cls := base_class; attrs := a; saved_pk := k |}).
Qed.

(** ** [scoped] and the names of classes *)

Lemma string_app_cons c a b : String c a +:+ b = String c (a +:+ b).
Proof. reflexivity. Qed.

Lemma string_app_assoc a b c : (a +:+ b) +:+ c = a +:+ (b +:+ c).
Proof.
  induction a as [|ch a IH]; [reflexivity|].
  by rewrite !string_app_cons, IH.
Qed.

Lemma re_sub_eq_comma_app a b :
  re_sub_eq_comma (a +:+ b) = re_sub_eq_comma a +:+ re_sub_eq_comma b.
Proof.
  induction a as [|ch a IH]; [reflexivity|].
  rewrite string_app_cons. simpl. by rewrite IH, string_app_cons.
Qed.

Lemma scoped_run {S} (s : S) base_class new_base_dn :
  exists new_class,
    scoped base_class new_base_dn s = (inr new_class, s)
    /\ cls_name new_class
       = cls_name base_class +:+ "_" +:+ re_sub_eq_comma new_base_dn
    /\ cls_module new_class = cls_module base_class
    /\ fields new_class = fields base_class
    /\ base_dn new_class = VStr new_base_dn.
Proof. eexists. split; [reflexivity|]. done. Qed.

(** X20. The name of a scoped class is the base class's name, an
    underscore and a suffix as long as the base DN, which is the base DN
    with every [=] and every [,] replaced by an underscore and every
    other character kept: the suffix holds no [=] and no [,]. *)
Theorem scoped_class_name (S : Type) (s : S) (base_class : Class)
    (new_base_dn : string) :
  exists new_class suffix,
    scoped base_class new_base_dn s = (inr new_class, s)
    /\ cls_name new_class = cls_name base_class +:+ "_" +:+ suffix
    /\ String.length suffix = String.length new_base_dn
    /\ (forall n,
          String.get n suffix
          = (fun ch => if bool_decide (ch = "="%char \/ ch = ","%char)
                       then "_"%char else ch) <$> String.get n new_base_dn)
    /\ (forall n ch, String.get n suffix = Some ch ->
          ch <> "="%char /\ ch <> ","%char).
Proof.
  destruct (scoped_run s base_class new_base_dn)
    as (k & Hrun & Hname & _).
  exists k, (re_sub_eq_comma new_base_dn). split_and!; try done.
  - clear. induction new_base_dn as [|ch b IH]; [done|]. simpl. by rewrite IH.
  - assert (Hget : forall b n,
      String.get n (re_sub_eq_comma b)
      = (fun ch => if bool_decide (ch = "="%char \/ ch = ","%char)
                   then "_"%char else ch) <$> String.get n b).
    { induction b as [|ch b IH]; intros n; [done|].
      destruct n as [|n]; simpl; [|apply IH].
      f_equal. destruct (Ascii.eqb ch "=") eqn:He; simpl.
      { apply Ascii.eqb_eq in He as ->. by rewrite bool_decide_eq_true_2 by auto. }
      destruct (Ascii.eqb ch ",") eqn:Hc; simpl.
      { apply Ascii.eqb_eq in Hc as ->. by rewrite bool_decide_eq_true_2 by auto. }
      apply Ascii.eqb_neq in He, Hc.
      rewrite bool_decide_eq_false_2; [done|]. by intros [|]. }
    apply Hget.
  - assert (Hno : forall b n ch,
      String.get n (re_sub_eq_comma b) = Some ch ->
      ch <> "="%char /\ ch <> ","%char).
    { induction b as [|c0 b IH]; intros n ch; [done|].
      destruct n as [|n]; simpl; [|apply IH].
      destruct (Ascii.eqb c0 "=") eqn:He; simpl; [by intros [= <-]|].
      destruct (Ascii.eqb c0 ",") eqn:Hc; simpl; [by intros [= <-]|].
      intros [= <-]. by apply Ascii.eqb_neq in He, Hc. }
    apply Hno.
Qed.

(** X21. Different base DNs can give scoped classes of one name: a base DN
    with [=] at some place and the base DN with [,] at that place give
    two classes with the same name and the same module, but different
    [base_dn]. *)
Theorem scoped_names_collide (S : Type) (s : S) (base_class : Class)
    (x y : string) :
  exists k1 k2,
    scoped base_class (x +:+ "=" +:+ y) s = (inr k1, s)
    /\ scoped base_class (x +:+ "," +:+ y) s = (inr k2, s)
    /\ cls_name k1 = cls_name k2
    /\ cls_module k1 = cls_module k2
    /\ base_dn k1 <> base_dn k2.
Proof.
  destruct (scoped_run s base_class (x +:+ "=" +:+ y))
    as (k1 & Hrun1 & Hname1 & Hmod1 & _ & Hbase1).
  destruct (scoped_run s base_class (x +:+ "," +:+ y))
    as (k2 & Hrun2 & Hname2 & Hmod2 & _ & Hbase2).
  exists k1, k2. split_and!; try done.
  - rewrite Hname1, Hname2. by rewrite !re_sub_eq_comma_app.
  - congruence.
  - rewrite Hbase1, Hbase2. intros [= Heq].
    apply (inj (String.app x)) in Heq. discriminate Heq.
Qed.

(** [build_dn] reads a class only at its fields and its base DN. *)
Lemma build_dn_class_ext c c' keys :
  fields c = fields c' -> base_dn c = base_dn c' ->
  build_dn (OnClass c) keys = build_dn (OnClass c') keys.
Proof.
  intros Hfields Hbase. unfold build_dn, build_rdn. simpl.
  by rewrite Hfields, Hbase, (build_rdn_loop_class_irrel c' c).
Qed.

Lemma build_dn_instance_ext i i' keys :
  attrs i = attrs i' -> fields (cls i) = fields (cls i') ->
  base_dn (cls i) = base_dn (cls i') ->
  build_dn (OnInstance i) keys = build_dn (OnInstance i') keys.
Proof.
  intros Hattrs Hfields Hbase. unfold build_dn, build_rdn. simpl.
  by rewrite Hfields, Hbase, (build_rdn_loop_attrs i' i).
Qed.

(** X22. Scoping is absolute, not relative: scoping a scoped class replaces
    the base DN again. The class obtained addresses entries as the base
    class scoped once with the last base DN does; only its name keeps
    track of both. *)
Theorem scoped_twice (S : Type) (s : S) (base_class : Class)
    (dn1 dn2 : string) :
  exists k1 k12 k2,
    scoped base_class dn1 s = (inr k1, s)
    /\ scoped k1 dn2 s = (inr k12, s)
    /\ scoped base_class dn2 s = (inr k2, s)
    /\ base_dn k12 = VStr dn2
    /\ cls_name k12
       = cls_name base_class +:+ "_" +:+ re_sub_eq_comma dn1 +:+ "_"
         +:+ re_sub_eq_comma dn2
    /\ (forall keys,
          build_dn (OnClass k12) keys = build_dn (OnClass k2) keys)
    /\ (forall keys a k,
          build_dn (OnInstance {| cls := k12; attrs := a; saved_pk := k |}) keys
          = build_dn (OnInstance {| cls := k2; attrs := a; saved_pk := k |})
              keys).
Proof.
  eexists _, _, _. split_and!; try reflexivity.
  - simpl. by rewrite !string_app_assoc.
  - intros keys. by apply build_dn_class_ext.
  - intros keys a k. by apply build_dn_instance_ext.
Qed.

(** ** Values in an RDN *)

(** X23. Values are written into the RDN as they are, without escaping: an
    override whose value contains a [+] followed by another field's
    attribute and [=] gives the RDN that two separate overrides give. *)
Theorem build_rdn_does_not_escape (c : Class) (f g : Field)
    (cf cg x y : string) :
  fields c = [f; g] ->
  mapped_column f = Some cf -> mapped_column g = Some cg ->
  name f <> name g -> primary_key g = false ->
  build_rdn (OnClass c) (<[name f := VStr x]> {[name g := VStr y]})
  = inr (cf +:+ "=" +:+ x +:+ "+" +:+ cg +:+ "=" +:+ y)
  /\ build_rdn (OnClass c)
       {[name f := VStr (x +:+ "+" +:+ cg +:+ "=" +:+ y)]}
     = inr (cf +:+ "=" +:+ x +:+ "+" +:+ cg +:+ "=" +:+ y).
Proof.
  intros Hfields [Hf Hcf]%mapped_column_Some [Hg Hcg]%mapped_column_Some
    Hne Hpk.
  unfold build_rdn. simpl. rewrite Hfields. simpl. rewrite Hf, Hg.
  destruct cf as [|a1 s1]; [done|]. destruct cg as [|a2 s2]; [done|].
  split.
  - rewrite lookup_insert_eq, lookup_insert_ne, lookup_singleton_eq by done.
    simpl. unfold rdn_bit. simpl. by rewrite !string_app_assoc.
  - rewrite lookup_singleton_eq, lookup_singleton_ne by done. rewrite Hpk.
    simpl. unfold rdn_bit. simpl. by rewrite ?string_app_assoc.
Qed.

(** ** The further properties at work on the demo model *)

Section MoreExamples.

Import Demo.

Lemma build_rdn_ignores_other_keys_witness :
  build_rdn (OnInstance alice) {["note" := VStr "x"]}
  = build_rdn (OnInstance alice) ∅
  /\ build_dn (OnInstance alice) {["note" := VStr "x"]}
     = build_dn (OnInstance alice) ∅.
Proof.
  apply build_rdn_ignores_other_keys.
  intros f Hin Hmapped. simpl in Hin.
  destruct Hin as [<-|[<-|[<-|[<-|[<-|[]]]]]];
    first [ by vm_compute
          | destruct Hmapped as [col Hcol]; vm_compute in Hcol;
            discriminate Hcol ].
Defined.

Lemma build_dn_class_predicts_instance_witness :
  build_rdn (OnClass Person) {["uid" := VStr "carol"]}
  = build_rdn (OnInstance carol) ∅
  /\ build_dn (OnClass Person) {["uid" := VStr "carol"]}
     = build_dn (OnInstance carol) ∅.
Proof.
  apply (build_dn_class_predicts_instance carol {["uid" := VStr "carol"]}).
  - vm_compute. reflexivity.
  - intros f Hin Hmapped. simpl in Hin.
    destruct Hin as [<-|[<-|[<-|[<-|[<-|[]]]]]]; by vm_compute.
Defined.

Lemma build_dn_unchanged_by_other_attributes_witness :
  build_rdn (OnInstance (set_attr "cn" (VStr "A. Liddell") alice)) ∅
  = build_rdn (OnInstance alice) ∅
  /\ build_dn (OnInstance (set_attr "cn" (VStr "A. Liddell") alice)) ∅
     = build_dn (OnInstance alice) ∅.
Proof.
  apply build_dn_unchanged_by_other_attributes.
  - simpl. auto.
  - simpl. intuition discriminate.
  - intros f Hin _ Hpk _. simpl in Hin.
    destruct Hin as [<-|[<-|[<-|[<-|[<-|[]]]]]];
      first [ discriminate Hpk | vm_compute; discriminate ].
Defined.

Lemma entry_loop_entries_witness :
  let B := with_alice in
  let acc : Entry := [("objectClass", ["top"; "person"])] in
  let entry : Entry :=
    [("objectClass", ["top"; "person"]); ("uid", ["carol"]);
     ("cn", ["Carol"])] in
  entry_loop carol "ldap" (fields Person) acc = inr entry
  /\ exists rest,
       entry = acc ++ rest
       /\ forall a w, In (a, w) rest ->
            exists f v,
              In f (fields Person) /\ mapped_column f = Some a
              /\ getattr carol (name f) = inr v /\ truthy v = true
              /\ w = get_db_prep_save f v "ldap".
Proof.
  intros B acc entry.
  assert (Hloop : entry_loop carol "ldap" (fields Person) acc = inr entry)
    by (vm_compute; reflexivity).
  split; [exact Hloop|].
  exact (entry_loop_entries carol "ldap" (fields Person) acc entry Hloop).
Defined.

Lemma save_modifies_in_place_witness :
  let B := with_alice in
  let st := start alice_edited 0%nat in
  let modlist :=
    modlist_loop alice alice_edited "ldap" (fields Person) [] in
  let get := EvGet Person (VStr "alice") in
  let modify :=
    EvModify "ldap" (VStr "uid=alice,ou=people,dc=example,dc=com") modlist in
  exists key,
    pk alice_edited = inr key
    /\ save None st
       = (inr tt,
          post_save_state false key
            (with_dir 1%nat (log_event modify (log_event get st)))).
Proof.
  intros B st modlist get modify.
  assert (Hwf : wf_instance (st_self st) = true) by (vm_compute; reflexivity).
  assert (Hdn : getattr (st_self st) "dn"
                = inr (VStr "uid=alice,ou=people,dc=example,dc=com"))
    by (vm_compute; reflexivity).
  assert (Hne : "uid=alice,ou=people,dc=example,dc=com" <> "") by discriminate.
  assert (Horig : objects_get (cls (st_self st)) (saved_pk (st_self st))
                    (st_dir st) = inr alice) by reflexivity.
  assert (Hml : modlist_loop alice (st_self st)
                  (connection_for None (st_self st))
                  (fields (cls (st_self st))) [] <> [])
    by (vm_compute; discriminate).
  assert (Hbuild : build_dn (OnInstance (st_self st)) ∅
                   = inr "uid=alice,ou=people,dc=example,dc=com")
    by (vm_compute; reflexivity).
  exact (save_modifies_in_place None st alice
           "uid=alice,ou=people,dc=example,dc=com"
           Hwf Hdn Hne Horig Hml Hbuild).
Defined.

Lemma save_lookup_raises_witness :
  let B := without_alice in
  let st := start alice_edited 0%nat in
  save None st = (inl DoesNotExist, log_event (EvGet Person (VStr "alice")) st).
Proof.
  intros B st.
  assert (Hdn : getattr (st_self st) "dn" = inr alice_dn)
    by (vm_compute; reflexivity).
  exact (save_lookup_raises None st alice_dn DoesNotExist Hdn eq_refl eq_refl).
Defined.


Lemma save_twice_never_adds_twice_witness :
  let B := with_alice in
  let st := start carol 0%nat in
  let st1 := (save None st).2 in
  let st2 := (save None st1).2 in
  exists key evs,
    pk (st_self st1) = inr key
    /\ added st1 st2 (EvGet (cls (st_self st1)) key :: evs)
    /\ forall c dn entry, ~ In (EvAdd c dn entry) evs.
Proof.
  intros B st st1 st2.
  assert (Hr : (save None st).1 = inr tt) by (vm_compute; reflexivity).
  assert (Hfirst : save None st = (inr tt, st1)).
  { rewrite <- Hr. apply surjective_pairing. }
  exact (save_twice_never_adds_twice None None st st1 st1
           (save None st1).1 st2 Hfirst eq_refl eq_refl eq_refl
           (surjective_pairing _)).
Defined.

Lemma save_after_delete_is_an_update_witness :
  let B := with_alice in
  let st := start alice 0%nat in
  let st1 := (delete None st).2 in
  let st2 := (save None st1).2 in
  exists evs,
    added st1 st2 (EvGet Person (VStr "alice") :: evs)
    /\ forall c dn entry, ~ In (EvAdd c dn entry) evs.
Proof.
  intros B st st1 st2.
  assert (Hdn : getattr (st_self st) "dn" = inr alice_dn)
    by (vm_compute; reflexivity).
  assert (Hr : (delete None st).1 = inr tt) by (vm_compute; reflexivity).
  assert (Hdel : delete None st = (inr tt, st1)).
  { rewrite <- Hr. apply surjective_pairing. }
  exact (save_after_delete_is_an_update None None st st1 alice_dn
           (save None st1).1 st2 Hdn eq_refl Hdel (surjective_pairing _)).
Defined.

Lemma save_looks_up_constructed_pk_witness :
  let B := with_alice in
  let st := start (set_attr "uid" (VStr "alicia") alice) 0%nat in
  let st' := (save None st).2 in
  exists key evs,
    attrs alice !! "uid" = Some key
    /\ added st st' (EvGet Person key :: evs)
    /\ forall c' dn entry, ~ In (EvAdd c' dn entry) evs.
Proof.
  intros B st st'.
  assert (Hinit : Model_init Person (attrs alice) = inr alice)
    by (vm_compute; reflexivity).
  assert (Hd : attrs alice !! "dn" = Some alice_dn)
    by (vm_compute; reflexivity).
  assert (Hname : name uid_field <> "dn") by discriminate.
  exact (save_looks_up_constructed_pk None Person (attrs alice) alice
           uid_field alice_dn (VStr "alicia") st (save None st).1 st'
           Hinit eq_refl Hname Hd eq_refl eq_refl (surjective_pairing _)).
Defined.

Lemma save_without_key_change_never_renames_witness :
  let B := with_alice in
  let st := start alice_edited 0%nat in
  let st' := (save None st).2 in
  exists evs,
    added st st' evs /\ forall c dn rdn, ~ In (EvRename c dn rdn) evs.
Proof.
  intros B st st'.
  assert (Hdn : getattr alice "dn"
                = inr (VStr "uid=alice,ou=people,dc=example,dc=com"))
    by (vm_compute; reflexivity).
  assert (Hbuild : build_dn (OnInstance alice) ∅
                   = inr "uid=alice,ou=people,dc=example,dc=com")
    by (vm_compute; reflexivity).
  assert (Hsame_dn : attrs (st_self st) !! "dn" = attrs alice !! "dn")
    by (vm_compute; reflexivity).
  assert (Hplain : forall j, attrs j = attrs alice \/ attrs j = attrs alice_edited ->
            forall n, In n class_attributes -> attrs j !! n = None).
  { intros j Hj n Hn. simpl in Hn.
    destruct Hj as [-> | ->];
      repeat (destruct Hn as [<-|Hn]; [by vm_compute|]); destruct Hn. }
  apply (save_without_key_change_never_renames None alice
           "uid=alice,ou=people,dc=example,dc=com" st (save None st).1 st'
           (Hplain alice (or_introl eq_refl))
           (Hplain (st_self st) (or_intror eq_refl))
           Hdn Hbuild eq_refl Hsame_dn).
  - intros f Hin _ Hpk. simpl in Hin.
    destruct Hin as [<-|[<-|[<-|[<-|[<-|[]]]]]];
      first [ discriminate Hpk | by vm_compute ].
  - apply surjective_pairing.
Defined.


Lemma build_rdn_does_not_escape_witness :
  build_rdn (OnClass Pair)
    (<["uid" := VStr "eve"]> {["cn" := VStr "Administrator"]})
  = inr "uid=eve+cn=Administrator"
  /\ build_rdn (OnClass Pair) {["uid" := VStr "eve+cn=Administrator"]}
     = inr "uid=eve+cn=Administrator".
Proof.
  assert (Hne : name uid_field <> name cn_field) by discriminate.
  exact (build_rdn_does_not_escape Pair uid_field cn_field "uid" "cn"
           "eve" "Administrator" eq_refl eq_refl eq_refl Hne eq_refl).
Defined.

Lemma bind_as_registers_witness :
  let DATABASES' :=
    (bind_as to_ldap Person "as_bob" VNone (VStr "pw")
       {["uid" := VStr "bob"]} databases).2 in
  DATABASES' !! "ldap" = Some ldap_settings
  /\ exists new_db,
       DATABASES' !! "as_bob" = Some new_db
       /\ new_db !! "USER"
          = Some (VStr "uid=bob,ou=people,dc=example,dc=com")
       /\ new_db !! "PASSWORD" = Some (VStr "pw")
       /\ new_db !! "ENGINE" = Some (VStr "ldapdb.backends.ldap").
Proof.
  intros DATABASES'.
  assert (Hbind :
    bind_as to_ldap Person "as_bob" VNone (VStr "pw")
      {["uid" := VStr "bob"]} databases
    = (inr (bound_class Person "as_bob"), DATABASES'))
    by (vm_compute; reflexivity).
  destruct (bind_as_registers _ _ _ _ _ _ _ _ _ Hbind)
    as (Hframe & old_db & new_db & user & Hold & Huser & Hnew & HU & HP & Hkeep).
  split.
  - rewrite Hframe by discriminate. reflexivity.
  - exists new_db. split; [exact Hnew|].
    assert (Hdn : build_dn (OnClass Person) {["uid" := VStr "bob"]}
                  = inr "uid=bob,ou=people,dc=example,dc=com")
      by (vm_compute; reflexivity).
    destruct Huser as [[Hgiven _]|[_ (s & Hs & ->)]]; [done|].
    rewrite Hdn in Hs. injection Hs as <-.
    split; [exact HU|]. split; [exact HP|].
    rewrite Hkeep by discriminate.
    destruct Hold as [Hold|[_ Hold]].
    + vm_compute in Hold. discriminate Hold.
    + assert (Hbase : databases !! to_ldap Person = Some ldap_settings)
        by (vm_compute; reflexivity).
      rewrite Hbase in Hold. injection Hold as <-.
      vm_compute. reflexivity.
Defined.

Lemma bind_as_raises_witness :
  let res :=
    bind_as to_ldap Person "as_bob" VNone (VStr "pw") ∅ databases in
  res.1 = inl (Raised all_keys_error)
  /\ ((Raised all_keys_error = KeyError (to_ldap Person)
       /\ databases !! "as_bob" = None
       /\ databases !! to_ldap Person = None
       /\ res.2 = databases)
      \/ (exists e0,
            Raised all_keys_error = Raised e0 /\ VNone = VNone
            /\ build_dn (OnClass Person) ∅ = inl e0
            /\ is_IdentityError e0 = true
            /\ (is_Some (databases !! "as_bob") /\ res.2 = databases
                \/ exists base_db,
                     databases !! "as_bob" = None
                     /\ databases !! to_ldap Person = Some base_db
                     /\ res.2 = <["as_bob" := base_db]> databases))).
Proof.
  intros res.
  assert (Hr : res.1 = inl (Raised all_keys_error))
    by (vm_compute; reflexivity).
  split; [exact Hr|].
  apply (bind_as_raises to_ldap Person "as_bob" VNone (VStr "pw") ∅
           databases res.2 (Raised all_keys_error)).
  rewrite <- Hr. apply surjective_pairing.
Defined.

Lemma bind_as_twice_witness :
  let DATABASES' :=
    (bind_as to_ldap Person "as_bob" VNone (VStr "pw")
       {["uid" := VStr "bob"]} databases).2 in
  bind_as to_ldap Person "as_bob" VNone (VStr "pw")
    {["uid" := VStr "bob"]} DATABASES'
  = (inr (bound_class Person "as_bob"), DATABASES').
Proof.
  intros DATABASES'.
  assert (Hbind :
    bind_as to_ldap Person "as_bob" VNone (VStr "pw")
      {["uid" := VStr "bob"]} databases
    = (inr (bound_class Person "as_bob"), DATABASES'))
    by (vm_compute; reflexivity).
  exact (bind_as_twice _ _ _ _ _ _ _ _ _ Hbind).
Defined.

Lemma bound_class_same_dn_witness :
  let keys : gmap string Value := {["uid" := VStr "bob"]} in
  build_rdn (OnClass (bound_class Person "as_bob")) keys
  = build_rdn (OnClass Person) keys
  /\ build_dn (OnClass (bound_class Person "as_bob")) keys
     = build_dn (OnClass Person) keys
  /\ forall a k,
       build_dn
         (OnInstance
            {| cls := bound_class Person "as_bob"; attrs := a; saved_pk := k |})
         keys
       = build_dn (OnInstance {| cls := Person; attrs := a; saved_pk := k |})
           keys.
Proof.
  intros keys.
  assert (Hbind :
    bind_as to_ldap Person "as_bob" VNone (VStr "pw")
      {["uid" := VStr "bob"]} databases
    = (inr (bound_class Person "as_bob"),
       (bind_as to_ldap Person "as_bob" VNone (VStr "pw")
          {["uid" := VStr "bob"]} databases).2))
    by (vm_compute; reflexivity).
  exact (bound_class_same_dn _ _ _ _ _ _ _ _ _ Hbind keys).
Defined.

End MoreExamples.
